(** * optimize_images.py: a shallow embedding and its properties

    The script [perso/voyages/optimize_images.py] re-encodes the JPEG
    photographs of a list of travel folders in place, shrinking those larger
    than 2000x2000, and writes a WebP sibling next to each of them.

    The embedding follows the script function by function.  The script's
    effects are reads and writes of files and lines printed on the console:
    they are modelled by a state (a finite map from paths to nodes, and the
    list of printed lines) threaded through a small state-and-exception
    monad.  The calls into Pillow and pathlib are modelled after these
    libraries' own code, as far as the script depends on it:
    - [Image.thumbnail] computes the target size as Pillow does (the script
      uses [Image.Resampling], so Pillow 9.1 or later), in exact rational
      arithmetic where Pillow uses binary floating point;
    - pixel data is not represented: an image is its mode and its size, and
      the byte length an encoder produces is a parameter of the model;
    - the file system holds directories and regular files only, and
      [Path.glob] matches names case-sensitively, as pathlib does on POSIX
      systems; a name whose file cannot be read (a symbolic link without a
      target) is a path without a node, which [Path.glob] of the model does
      not list;
    - [Image.open] reads every image file, whatever its number of pixels;
    - the console takes every line that is printed, and the answer that
      [input] reads is a parameter of the run. *)

From Stdlib Require Import ZArith NArith QArith Qround Qabs Lqa Lia Ascii.
From stdpp Require Import gmap strings list.

Local Open Scope Z_scope.

(** ** Python exceptions *)

(** The exceptions the calls of the script can raise.  All of them derive
    from [Exception]. *)
Inductive exn :=
  | FileNotFoundError
  | IsADirectoryError
  | PermissionError
  | NotADirectoryError
  | UnidentifiedImageError
  | OSError (msg : string)
  | KeyError (key : string)
  | ValueError (msg : string)
  | ZeroDivisionError.

#[global] Instance exn_eq_dec : EqDecision exn.
Proof. solve_decision. Defined.

(** The outcome of a call: a value, or a raised exception. *)
Inductive result (A : Type) :=
  | Ok (a : A)
  | Raise (e : exn).
Arguments Ok {A} a.
Arguments Raise {A} e.

(** ** Pillow: images and [Image.thumbnail] *)

Module Pillow.

(** The modes [Image.open] and [Image.convert] can give an image. *)
Inductive mode :=
  | M1 | L | P | RGB | RGBA | CMYK | YCbCr | LAB | HSV | I | F
  | LA | PA | RGBX | RGBa | La | I16.

#[global] Instance mode_eq_dec : EqDecision mode.
Proof. solve_decision. Defined.

(** [Image.mode] as the string the script compares it with. *)
Definition mode_name (m : mode) : string :=
  match m with
  | M1 => "1" | L => "L" | P => "P" | RGB => "RGB" | RGBA => "RGBA"
  | CMYK => "CMYK" | YCbCr => "YCbCr" | LAB => "LAB" | HSV => "HSV"
  | I => "I" | F => "F" | LA => "LA" | PA => "PA" | RGBX => "RGBX"
  | RGBa => "RGBa" | La => "La" | I16 => "I;16"
  end.

(** The modes that carry an alpha channel ([Image.has_transparency_data]
    looks for these), and the palette-indexed ones. *)
Definition has_alpha (m : mode) : bool :=
  match m with
  | LA | La | PA | RGBA | RGBa => true
  | _ => false
  end.

Definition is_palette (m : mode) : bool :=
  match m with
  | P | PA => true
  | _ => false
  end.

(** An image object: its mode and size, and whether its pixel data can be
    loaded ([Image.open] reads the header only; [load] raises on a file whose
    data is cut short). *)
Record image := Image {
  im_mode : mode;
  im_width : Z;
  im_height : Z;
  im_loadable : bool
}.

#[global] Instance image_eq_dec : EqDecision image.
Proof. solve_decision. Defined.

Definition im_size (im : image) : Z * Z := (im_width im, im_height im).

(** [Image.load()]. *)
Definition load (im : image) : result unit :=
  if im_loadable im then Ok tt else Raise (OSError "image file is truncated").

(** [Image.convert(mode)]: loads the picture and gives a copy in the other
    mode. *)
Definition convert (im : image) (m : mode) : result image :=
  match load im with
  | Raise e => Raise e
  | Ok _ =>
      Ok {| im_mode := m; im_width := im_width im; im_height := im_height im;
            im_loadable := true |}
  end.

(** [round_aspect] of [Image.thumbnail]:
    [max(min(math.floor(number), math.ceil(number), key=key), 1)].
    Python's [min] keeps the first of two candidates of equal key. *)
Definition round_aspect (number : Q) (key : Z -> Q) : Z :=
  let lo := Qfloor number in
  let hi := Qceiling number in
  Z.max (if Qle_bool (key lo) (key hi) then lo else hi) 1.

(** [preserve_aspect_ratio] of [Image.thumbnail]: [None] when the image
    already fits in the requested box, otherwise the size to resize to. *)
Definition preserve_aspect_ratio (provided_size : Z * Z) (im : image)
  : result (option (Z * Z)) :=
  let '(x, y) := provided_size in
  if (x >=? im_width im) && (y >=? im_height im) then Ok None
  else if (im_height im =? 0) || (y =? 0) then Raise ZeroDivisionError
  else
    let aspect := (inject_Z (im_width im) / inject_Z (im_height im))%Q in
    if Qle_bool aspect (inject_Z x / inject_Z y)%Q then
      Ok (Some (round_aspect (inject_Z y * aspect)%Q
                  (fun n => Qabs (aspect - inject_Z n / inject_Z y)%Q),
                y))
    else if Qeq_bool aspect 0 then Raise ZeroDivisionError
    else
      Ok (Some (x,
                round_aspect (inject_Z x / aspect)%Q
                  (fun n => if n =? 0 then 0%Q
                            else Qabs (aspect - inject_Z x / inject_Z n)%Q))).

(** [Image.resize(size)]: loads the picture and resamples it to [size]. *)
Definition resize (im : image) (size : Z * Z) : result image :=
  match load im with
  | Raise e => Raise e
  | Ok _ =>
      Ok {| im_mode := im_mode im; im_width := fst size;
            im_height := snd size; im_loadable := true |}
  end.

(** [Image.thumbnail(size, resample)] works in place: the result is the
    image afterwards.  The resampling filter acts on pixel data only. *)
Definition thumbnail (im : image) (size : Z * Z) : result image :=
  match preserve_aspect_ratio size im with
  | Raise e => Raise e
  | Ok None => Ok im
  | Ok (Some size') =>
      if decide (im_size im = size') then Ok im else resize im size'
  end.

(** The encoders.  [JpegImagePlugin.RAWMODE] lists the modes the JPEG
    encoder writes; a JPEG file holds one, three or four components, read
    back as [L], [RGB] or [CMYK]. *)
Definition jpeg_rawmode (m : mode) : option mode :=
  match m with
  | M1 | L => Some L
  | RGB | RGBX | YCbCr => Some RGB
  | CMYK => Some CMYK
  | _ => None
  end.

(** [WebPImagePlugin._save] converts every mode other than [RGB], [RGBA]
    and [RGBX] to [RGBA] or [RGB], by [has_transparency_data]. *)
Definition webp_rawmode (m : mode) : mode :=
  match m with
  | RGB | RGBX => RGB
  | RGBA => RGBA
  | _ => if has_alpha m then RGBA else RGB
  end.

End Pillow.

(** ** The state of a run: files and console *)

(** A path is the list of its components ([PurePath.parts]), relative to
    the working directory. *)
Abbreviation path := (list string).

Inductive format := JPEG | PNG | GIF | WEBP.

#[global] Instance format_eq_dec : EqDecision format.
Proof. solve_decision. Defined.

(** What a regular file holds: an image in some format, with the length of
    the file in bytes, or bytes no decoder of Pillow recognises. *)
Inductive content :=
  | Encoded (fmt : format) (im : Pillow.image) (nbytes : N)
  | Garbage (nbytes : N).

#[global] Instance content_eq_dec : EqDecision content.
Proof. solve_decision. Defined.

Inductive node :=
  | Dir (st_size : N)
  | File (writable : bool) (c : content).

#[global] Instance node_eq_dec : EqDecision node.
Proof. solve_decision. Defined.

(** The lines the script prints, one constructor for each [print] of the
    source.  Numbers are kept as the script computes them; the script
    formats them with one decimal. *)
Inductive line :=
  | PResized (name : string)
  | POptimized (name : string) (original_kb new_kb : N) (saved : Q)
  | PWebp (webp_kb : N)
  | PError (name : string) (e : exn)
  | PTitle
  | PConfiguration
  | PQualityJpg (q : Z)
  | PQualityWebp (q : Z)
  | PMaxSize (size : Z * Z)
  | PCreateWebp (b : bool)
  | PMissingFolder (folder : string)
  | PFolder (folder : string)
  | PRule
  | PSummary
  | PCount (total_images : N)
  | POriginalTotal (total_original : N)
  | POptimizedTotal (total_optimized : N)
  | PSaved (saved_bytes : Z) (saved_percent : Q)
  | PFinished
  | PWebpHint (n : nat)
  | PPrompt
  | PCancelled.

Record world := World {
  files : gmap path node;
  console : list line
}.

(** ** The monad of the script: state and exceptions *)

Definition M (A : Type) : Type := world -> result A * world.

#[global] Instance M_ret : MRet M := fun A a w => (Ok a, w).

#[global] Instance M_bind : MBind M := fun A B k m w =>
  match m w with
  | (Ok a, w') => k a w'
  | (Raise e, w') => (Raise e, w')
  end.

Definition raise {A} (e : exn) : M A := fun w => (Raise e, w).

(** A pure call that may raise. *)
Definition lift {A} (r : result A) : M A := fun w => (r, w).

(** [try: body except Exception as e: handler(e)]. *)
Definition try_except {A} (body : M A) (handler : exn -> M A) : M A :=
  fun w =>
    match body w with
    | (Ok a, w') => (Ok a, w')
    | (Raise e, w') => handler e w'
    end.

Definition print (l : line) : M unit := fun w =>
  (Ok tt, {| files := files w; console := console w ++ [l] |}).

Definition get_files : M (gmap path node) := fun w => (Ok (files w), w).

Definition put_file (p : path) (n : node) : M unit := fun w =>
  (Ok tt, {| files := <[p := n]> (files w); console := console w |}).

Definition remove_file (p : path) : M unit := fun w =>
  (Ok tt, {| files := delete p (files w); console := console w |}).

(** ** pathlib *)

Module pathlib.

(** [Path(s)]: the components of [s] between slashes. *)
Fixpoint parts_from (s : string) (cur : string) : path :=
  match s with
  | EmptyString => if decide (cur = EmptyString) then [] else [cur]
  | String c s' =>
      if Ascii.eqb c "/"%char then
        if decide (cur = EmptyString) then parts_from s' EmptyString else cur :: parts_from s' EmptyString
      else parts_from s' (cur +:+ String c EmptyString)
  end.

Definition Path (s : string) : path := parts_from s EmptyString.

(** [PurePath.name] and [PurePath.parent]. *)
Definition name (p : path) : string := default EmptyString (last p).

Definition parent (p : path) : path := take (length p - 1)%nat p.

(** [str.rfind(c)]: the index of the last occurrence of [c]. *)
Fixpoint rfind (c : ascii) (s : string) : option nat :=
  match s with
  | EmptyString => None
  | String a s' =>
      match rfind c s' with
      | Some i => Some (S i)
      | None => if Ascii.eqb a c then Some 0%nat else None
      end
  end.

(** [PurePath.suffix]:
    [i = name.rfind('.')]; [name[i:]] if [0 < i < len(name) - 1] else [''];
    given here on the name. *)
Definition suffix (nm : string) : string :=
  match rfind "."%char nm with
  | Some i =>
      if (0 <? i)%nat && (i <? String.length nm - 1)%nat
      then String.substring i (String.length nm - i) nm
      else EmptyString
  | None => EmptyString
  end.

(** [PurePath.with_suffix(suffix)], for a [suffix] that starts with a dot
    and holds no separator. *)
Definition with_suffix (p : path) (sfx : string) : result path :=
  let nm := name p in
  if decide (nm = EmptyString) then Raise (ValueError "path has an empty name")
  else
    let old_suffix := suffix nm in
    let nm' :=
      if decide (old_suffix = EmptyString) then nm +:+ sfx
      else String.substring 0 (String.length nm - String.length old_suffix) nm +:+ sfx
    in
    Ok (parent p ++ [nm']).

(** [fnmatch] on one path component, for patterns of literal characters,
    [*] and [?] (the script's patterns hold no bracket expression). *)
Fixpoint fnmatch (pat nm : string) {struct pat} : bool :=
  match pat with
  | EmptyString => bool_decide (nm = EmptyString)
  | String c pat' =>
      if Ascii.eqb c "*"%char then
        (fix star (n : string) : bool :=
           fnmatch pat' n
           || match n with
              | EmptyString => false
              | String _ n' => star n'
              end) nm
      else
        match nm with
        | EmptyString => false
        | String d nm' =>
            (Ascii.eqb c "?"%char || Ascii.eqb c d) && fnmatch pat' nm'
        end
  end.

(** The entries of directory [d]: the paths one component below it. *)
Definition is_child (d p : path) : Prop := p ≠ [] ∧ parent p = d.

#[global] Instance is_child_dec d p : Decision (is_child d p).
Proof. unfold is_child. apply _. Defined.

Definition iterdir (fs : gmap path node) (d : path) : list path :=
  filter (is_child d) (map fst (map_to_list fs)).

(** [Path.exists()]. *)
Definition exists_ (p : path) : M bool :=
  fs ← get_files; mret (bool_decide (is_Some (fs !! p))).

(** [list(Path.glob(pattern))] for a pattern of one component: the entries
    of the directory whose name matches; nothing on a path that is no
    directory. *)
Definition glob (d : path) (pat : string) : M (list path) :=
  fs ← get_files;
  match fs !! d with
  | Some (Dir _) => mret (filter (fun p => fnmatch pat (name p)) (iterdir fs d))
  | _ => mret []
  end.

End pathlib.

(** ** os.path and the files Pillow reads and writes *)

(** [os.path.getsize(path)]. *)
Definition getsize (p : path) : M N :=
  fs ← get_files;
  match fs !! p with
  | None => raise FileNotFoundError
  | Some (Dir sz) => mret sz
  | Some (File _ (Encoded _ _ nbytes)) => mret nbytes
  | Some (File _ (Garbage nbytes)) => mret nbytes
  end.

(** [open(filename, "w+b")]: the file is created if it is missing, and cut
    to length zero if it is there. *)
Definition open_wb (p : path) : M unit :=
  fs ← get_files;
  match fs !! p with
  | Some (Dir _) => raise IsADirectoryError
  | Some (File false _) => raise PermissionError
  | Some (File true _) => put_file p (File true (Garbage 0))
  | None =>
      match pathlib.parent p with
      | [] => put_file p (File true (Garbage 0))
      | d =>
          match fs !! d with
          | Some (Dir _) => put_file p (File true (Garbage 0))
          | Some (File _ _) => raise NotADirectoryError
          | None => raise FileNotFoundError
          end
      end
  end.

(** The encoders of the Pillow installation: the length in bytes of what
    they write for an image at a given quality, and whether the WebP plugin
    is there (it is missing when Pillow is built without libwebp). *)
Record codec := Codec {
  jpeg_bytes : Pillow.image -> Z -> N;
  webp_bytes : Pillow.image -> Z -> N;
  webp_supported : bool
}.

Inductive encoder := SaveJPEG | SaveWEBP.

Section Script.

Context (pil : codec).

(** [Image.open(path)]: identifies the file by its content and reads the
    header. *)
Definition Image_open (p : path) : M Pillow.image :=
  fs ← get_files;
  match fs !! p with
  | None => raise FileNotFoundError
  | Some (Dir _) => raise IsADirectoryError
  | Some (File _ (Garbage _)) => raise UnidentifiedImageError
  | Some (File _ (Encoded _ im _)) => mret im
  end.

(** [JpegImagePlugin._save] and [WebPImagePlugin._save]: what the encoder
    writes for an image, or the exception it raises. *)
Definition encode (enc : encoder) (im : Pillow.image) (quality : Z)
  : result content :=
  let w := Pillow.im_width im in
  let h := Pillow.im_height im in
  match enc with
  | SaveJPEG =>
      if (w =? 0) || (h =? 0) then
        Raise (ValueError "cannot write empty image as JPEG")
      else
        match Pillow.jpeg_rawmode (Pillow.im_mode im) with
        | None =>
            Raise (OSError ("cannot write mode "
                            +:+ Pillow.mode_name (Pillow.im_mode im)
                            +:+ " as JPEG"))
        | Some m =>
            if (65500 <? w) || (65500 <? h) then
              Raise (OSError "encoder error -2 when writing image file")
            else
              Ok (Encoded JPEG
                    {| Pillow.im_mode := m; Pillow.im_width := w;
                       Pillow.im_height := h; Pillow.im_loadable := true |}
                    (jpeg_bytes pil im quality))
        end
  | SaveWEBP =>
      if (w <=? 0) || (h <=? 0) || (16383 <? w) || (16383 <? h) then
        Raise (OSError "cannot write file as WebP (encoder returned None)")
      else
        Ok (Encoded WEBP
              {| Pillow.im_mode := Pillow.webp_rawmode (Pillow.im_mode im);
                 Pillow.im_width := w; Pillow.im_height := h;
                 Pillow.im_loadable := true |}
              (webp_bytes pil im quality))
  end.

(** The save handler, writing to the file [Image.save] has opened. *)
Definition save_handler (enc : encoder) (im : Pillow.image) (p : path)
    (quality : Z) : M unit :=
  c ← lift (encode enc im quality);
  put_file p (File true c).

(** [Image.save(fp, format, quality=...)] on a path: the picture is loaded,
    the encoder is looked up, the file is opened for writing, and the
    encoder runs; when the encoder raises, a file this call created is
    removed again. *)
Definition Image_save (im : Pillow.image) (p : path) (enc : encoder)
    (quality : Z) : M unit :=
  lift (Pillow.load im);;
  match enc with
  | SaveWEBP => if webp_supported pil then mret tt else raise (KeyError "WEBP")
  | SaveJPEG => mret tt
  end;;
  fs ← get_files;
  let created := bool_decide (fs !! p = None) in
  open_wb p;;
  try_except (save_handler enc im p quality)
    (fun e => (if created then remove_file p else mret tt);; raise e).

(** ** The script *)

(** The module-level constants of the script. *)
Record config := Config {
  QUALITY_JPG : Z;
  QUALITY_WEBP : Z;
  CREATE_WEBP : bool;
  MAX_SIZE : Z * Z;
  TRAVEL_FOLDERS : list string
}.

Context (cfg : config).

(** Python's true division of integers. *)
Definition truediv (a b : Z) : result Q :=
  if b =? 0 then Raise ZeroDivisionError else Ok (inject_Z a / inject_Z b)%Q.

Definition optimize_image (image_path : path) : M bool :=
  try_except
    (img ← Image_open image_path;
     img ← (if bool_decide (Pillow.im_mode img ∈ [Pillow.RGBA; Pillow.P])
            then lift (Pillow.convert img Pillow.RGB)
            else mret img);
     img ← (if (Pillow.im_width img >? fst (MAX_SIZE cfg))
               || (Pillow.im_height img >? snd (MAX_SIZE cfg))
            then
              img ← lift (Pillow.thumbnail img (MAX_SIZE cfg));
              print (PResized (pathlib.name image_path));;
              mret img
            else mret img);
     original_size ← getsize image_path;
     Image_save img image_path SaveJPEG (QUALITY_JPG cfg);;
     new_size ← getsize image_path;
     ratio ← lift (truediv (Z.of_N original_size - Z.of_N new_size)
                     (Z.of_N original_size));
     let saved := (ratio * 100)%Q in
     print (POptimized (pathlib.name image_path)
              (original_size / 1024)%N (new_size / 1024)%N saved);;
     (if CREATE_WEBP cfg then
        webp_path ← lift (pathlib.with_suffix image_path ".webp");
        Image_save img webp_path SaveWEBP (QUALITY_WEBP cfg);;
        webp_size ← getsize webp_path;
        print (PWebp (webp_size / 1024)%N)
      else mret tt);;
     mret true)
    (fun e =>
       print (PError (pathlib.name image_path) e);;
       mret false).

(** The three counters of [main]. *)
Record totals := Totals {
  total_images : N;
  total_original : N;
  total_optimized : N
}.

(** [for img_path in images: ...] *)
Fixpoint for_images (images : list path) (acc : totals) : M totals :=
  match images with
  | [] => mret acc
  | img_path :: rest =>
      original_size ← getsize img_path;
      ok ← optimize_image img_path;
      acc' ← (if ok : bool then
                new_size ← getsize img_path;
                mret {| total_images := total_images acc + 1;
                        total_original := total_original acc + original_size;
                        total_optimized := total_optimized acc + new_size |}%N
              else mret acc);
      for_images rest acc'
  end.

(** Line 88:
    [list(folder_path.glob('*.jpg')) + list(folder_path.glob('*.JPG'))]. *)
Definition images_of (folder_path : path) : M (list path) :=
  lower ← pathlib.glob folder_path "*.jpg";
  upper ← pathlib.glob folder_path "*.JPG";
  mret (lower ++ upper).

(** [for folder in TRAVEL_FOLDERS: ...] *)
Fixpoint for_folders (folders : list string) (acc : totals) : M totals :=
  match folders with
  | [] => mret acc
  | folder :: rest =>
      let folder_path := pathlib.Path folder in
      found ← pathlib.exists_ folder_path;
      if negb found then
        print (PMissingFolder folder);;
        for_folders rest acc
      else
        print (PFolder folder);;
        images ← images_of folder_path;
        acc' ← for_images images acc;
        for_folders rest acc'
  end.

Definition main : M unit :=
  print PTitle;;
  print PConfiguration;;
  print (PQualityJpg (QUALITY_JPG cfg));;
  print (PQualityWebp (QUALITY_WEBP cfg));;
  print (PMaxSize (MAX_SIZE cfg));;
  print (PCreateWebp (CREATE_WEBP cfg));;
  acc ← for_folders (TRAVEL_FOLDERS cfg)
          {| total_images := 0; total_original := 0; total_optimized := 0 |};
  print PRule;;
  print PSummary;;
  print PRule;;
  print (PCount (total_images acc));;
  print (POriginalTotal (total_original acc));;
  print (POptimizedTotal (total_optimized acc));;
  let saved_bytes := Z.of_N (total_original acc) - Z.of_N (total_optimized acc) in
  ratio ← lift (truediv saved_bytes (Z.of_N (total_original acc)));
  let saved_percent := (ratio * 100)%Q in
  print (PSaved saved_bytes saved_percent);;
  print PRule;;
  print PFinished;;
  if CREATE_WEBP cfg then
    print (PWebpHint 0);;
    print (PWebpHint 1);;
    print (PWebpHint 2);;
    print (PWebpHint 3);;
    print (PWebpHint 4)
  else mret tt.

(** [str.lower()] on the characters of ASCII. *)
Definition ascii_lower (c : ascii) : ascii :=
  let n := nat_of_ascii c in
  if (65 <=? n)%nat && (n <=? 90)%nat then ascii_of_nat (n + 32) else c.

Fixpoint lower (s : string) : string :=
  match s with
  | EmptyString => EmptyString
  | String c s' => String (ascii_lower c) (lower s')
  end.

(** The [if __name__ == '__main__':] block; [response] is the line that
    [input] reads from the operator. *)
Definition script (response : string) : M unit :=
  print PPrompt;;
  if bool_decide (lower response ∈ ["o"; "oui"; "y"; "yes"])
  then main
  else print PCancelled.

End Script.

(** The configuration written in the script. *)
Definition script_config : config :=
  {| QUALITY_JPG := 85;
     QUALITY_WEBP := 80;
     CREATE_WEBP := true;
     MAX_SIZE := (2000, 2000);
     TRAVEL_FOLDERS :=
       [ "Finlande"; "Norvège"; "Estonie"; "Lettonie"; "France/Nice";
         "France/Monaco"; "France/Cannes"; "Espagne/Lloret de mar" ] |}.

(** ** What a call of [optimize_image] does *)

Definition content_size (c : content) : N :=
  match c with
  | Encoded _ _ nbytes => nbytes
  | Garbage nbytes => nbytes
  end.

Section Outcome.

Context (pil : codec) (cfg : config).

(** The picture [optimize_image] holds when it reaches the first [save]:
    the opened image after the conversion of lines 37-38 and the resize of
    lines 41-42. *)
Definition normalize (im : Pillow.image) : result Pillow.image :=
  if bool_decide (Pillow.im_mode im ∈ [Pillow.RGBA; Pillow.P])
  then Pillow.convert im Pillow.RGB
  else Ok im.

Definition oversize (im : Pillow.image) : bool :=
  (Pillow.im_width im >? fst (MAX_SIZE cfg))
  || (Pillow.im_height im >? snd (MAX_SIZE cfg)).

Definition picture (im : Pillow.image) : result Pillow.image :=
  match normalize im with
  | Raise e => Raise e
  | Ok img =>
      if oversize img then Pillow.thumbnail img (MAX_SIZE cfg) else Ok img
  end.

(** The line of line 43, printed when the picture was resized. *)
Definition resized_line (p : path) (im : Pillow.image) : list line :=
  match normalize im with
  | Ok img => if oversize img then [PResized (pathlib.name p)] else []
  | Raise _ => []
  end.

(** The percentage of line 49. *)
Definition saved_percent (original_size new_size : N) : Q :=
  (inject_Z (Z.of_N original_size - Z.of_N new_size)
   / inject_Z (Z.of_N original_size) * 100)%Q.

Definition optimized_line (p : path) (original_size new_size : N) : line :=
  POptimized (pathlib.name p) (original_size / 1024)%N (new_size / 1024)%N
    (saved_percent original_size new_size).

(** The ways a call [optimize_image p] in world [w] can end: the value it
    returns and the world it leaves.  A failed call leaves the files as
    they were, or the file at [p] cut to length zero (the JPEG encoder
    raised after the file was opened for writing), or the re-encoded JPEG
    at [p] (a later step raised), possibly with an older WebP sibling cut
    to length zero. *)
Inductive outcome (p : path) (w : world) : bool -> world -> Prop :=
  | failed_untouched tr e :
      outcome p w false
        {| files := files w;
           console := console w ++ tr ++ [PError (pathlib.name p) e] |}
  | failed_truncated c tr e :
      files w !! p = Some (File true c) ->
      outcome p w false
        {| files := <[p := File true (Garbage 0)]> (files w);
           console := console w ++ tr ++ [PError (pathlib.name p) e] |}
  | failed_after_jpeg fmt im n img jpg tr e :
      files w !! p = Some (File true (Encoded fmt im n)) ->
      picture im = Ok img ->
      encode pil SaveJPEG img (QUALITY_JPG cfg) = Ok jpg ->
      outcome p w false
        {| files := <[p := File true jpg]> (files w);
           console := console w ++ tr ++ [PError (pathlib.name p) e] |}
  | failed_webp_truncated fmt im n img jpg sib c tr e :
      files w !! p = Some (File true (Encoded fmt im n)) ->
      picture im = Ok img ->
      encode pil SaveJPEG img (QUALITY_JPG cfg) = Ok jpg ->
      CREATE_WEBP cfg = true ->
      pathlib.with_suffix p ".webp" = Ok sib ->
      <[p := File true jpg]> (files w) !! sib = Some (File true c) ->
      outcome p w false
        {| files := <[sib := File true (Garbage 0)]>
                      (<[p := File true jpg]> (files w));
           console := console w ++ tr ++ [PError (pathlib.name p) e] |}
  | done_jpeg fmt im n img jpg :
      files w !! p = Some (File true (Encoded fmt im n)) ->
      picture im = Ok img ->
      encode pil SaveJPEG img (QUALITY_JPG cfg) = Ok jpg ->
      n ≠ 0%N ->
      CREATE_WEBP cfg = false ->
      outcome p w true
        {| files := <[p := File true jpg]> (files w);
           console := console w ++ resized_line p im
                      ++ [optimized_line p n (content_size jpg)] |}
  | done_webp fmt im n img jpg sib webp :
      files w !! p = Some (File true (Encoded fmt im n)) ->
      picture im = Ok img ->
      encode pil SaveJPEG img (QUALITY_JPG cfg) = Ok jpg ->
      n ≠ 0%N ->
      CREATE_WEBP cfg = true ->
      pathlib.with_suffix p ".webp" = Ok sib ->
      encode pil SaveWEBP img (QUALITY_WEBP cfg) = Ok webp ->
      outcome p w true
        {| files := <[sib := File true webp]>
                      (<[p := File true jpg]> (files w));
           console := console w ++ resized_line p im
                      ++ [optimized_line p n (content_size jpg);
                          PWebp (content_size webp / 1024)%N] |}.

End Outcome.

(** ** Vocabulary of the statements *)

(** The aspect ratio of [im'] is that of [im], as an equation between
    integers: [width' / height' = width / height]. *)
Definition aspect_ratio_preserved (im im' : Pillow.image) : Prop :=
  Pillow.im_width im' * Pillow.im_height im
  = Pillow.im_height im' * Pillow.im_width im.

(** [im'] fits in [box] and keeps the aspect ratio of [im] as far as whole
    pixels allow: one side is the side of the box, and the other is less
    than one pixel away from the exactly proportional length. *)
Definition fits_box (box : Z * Z) (im im' : Pillow.image) : Prop :=
  let '(x, y) := box in
  1 <= Pillow.im_width im' <= x ∧ 1 <= Pillow.im_height im' <= y ∧
  ((Pillow.im_height im' = y ∧
    Z.abs (Pillow.im_width im' * Pillow.im_height im
           - y * Pillow.im_width im) < Pillow.im_height im)
   ∨ (Pillow.im_width im' = x ∧
      Z.abs (Pillow.im_height im' * Pillow.im_width im
             - x * Pillow.im_height im) < Pillow.im_width im)).

(** The counters of [main] after one more file (lines 93-95). *)
Definition add_file (acc : totals) (original_size new_size : N) : totals :=
  {| total_images := total_images acc + 1;
     total_original := total_original acc + original_size;
     total_optimized := total_optimized acc + new_size |}%N.


(** The value [optimize_image] returns carries the byte sizes of the file
    before and after the call: they can be read off the returned value by
    some function [sizes_of]. *)
Definition carries_sizes (sizes_of : bool -> N * N) : Prop :=
  ∀ pil cfg p w w' original_size new_size,
    optimize_image pil cfg p w = (Ok true, w') ->
    getsize p w = (Ok original_size, w) ->
    getsize p w' = (Ok new_size, w') ->
    sizes_of true = (original_size, new_size).

(** An answer to the prompt is affirmative when it is one of the tokens of
    line 120 up to the case of its letters. *)
Definition same_nocase (s t : string) : Prop := lower s = lower t.

Definition affirmative (response : string) : Prop :=
  ∃ token, token ∈ ["o"; "oui"; "y"; "yes"] ∧ same_nocase response token.

(** The world once a line is printed. *)
Definition printed (ls : list line) (w : world) : world :=
  {| files := files w; console := console w ++ ls |}.


Definition no_totals : totals :=
  {| total_images := 0; total_original := 0; total_optimized := 0 |}.

(** A pattern of literal characters only. *)
Fixpoint literal (pat : string) : bool :=
  match pat with
  | EmptyString => true
  | String c pat' =>
      negb (Ascii.eqb c "*"%char) && negb (Ascii.eqb c "?"%char)
      && literal pat'
  end.

(** The extension of a file name is [.jpg] up to the case of its
    letters. *)
Definition ext_matches_nocase (nm : string) : Prop :=
  lower (pathlib.suffix nm) = ".jpg".

(** The world in which [optimize_image] reaches line 54: the JPEG is
    written and its line is printed. *)
Definition after_jpeg (cfg : config) (p : path) (w : world)
    (im : Pillow.image) (n : N) (jpg : content) : world :=
  {| files := <[p := File true jpg]> (files w);
     console := console w ++ resized_line cfg p im
                ++ [optimized_line p n (content_size jpg)] |}.

(** ** Sample runs *)

(** An installation whose encoders write a tenth of a byte per pixel as
    JPEG and a fifteenth as WebP, after a header. *)
Definition sample_codec : codec :=
  {| jpeg_bytes := fun im _ =>
       Z.to_N (Pillow.im_width im * Pillow.im_height im / 10 + 600);
     webp_bytes := fun im _ =>
       Z.to_N (Pillow.im_width im * Pillow.im_height im / 15 + 100);
     webp_supported := true |}.

Definition photo (m : Pillow.mode) (width height : Z) : Pillow.image :=
  {| Pillow.im_mode := m; Pillow.im_width := width;
     Pillow.im_height := height; Pillow.im_loadable := true |}.

(** A world of one folder [Finlande] holding one file. *)
Definition one_file (nm : string) (c : content) : world :=
  {| files := <[ ["Finlande"; nm] := File true c ]>
                (<[ ["Finlande"] := Dir 4096 ]> ∅);
     console := [] |}.

(** ** Vocabulary of the further properties *)

(** [open(filename, "w+b")] succeeds on [p]: the path holds a file that can
    be written, or holds nothing and lies in the working directory or in a
    directory that is there. *)
Definition can_open_wb (fs : gmap path node) (p : path) : bool :=
  match fs !! p with
  | Some (Dir _) => false
  | Some (File wr _) => wr
  | None =>
      match pathlib.parent p with
      | [] => true
      | d => match fs !! d with Some (Dir _) => true | _ => false end
      end
  end.

(** The world a call of [optimize_image] leaves when it succeeds with
    [CREATE_WEBP] on. *)
Definition after_webp (cfg : config) (p sib : path) (w : world)
    (im : Pillow.image) (n : N) (jpg webp : content) : world :=
  {| files := <[sib := File true webp]> (<[p := File true jpg]> (files w));
     console := console w ++ resized_line cfg p im
                ++ [optimized_line p n (content_size jpg);
                    PWebp (content_size webp / 1024)%N] |}.

(** The image in the file at a path, if the path holds an image file. *)
Definition image_at (w : world) (p : path) : option Pillow.image :=
  match files w !! p with
  | Some (File _ (Encoded _ im _)) => Some im
  | _ => None
  end.

(** The encoders of an installation never write an empty file. *)
Definition writes_bytes (pil : codec) : Prop :=
  ∀ im q, jpeg_bytes pil im q ≠ 0%N ∧ webp_bytes pil im q ≠ 0%N.

(** A file extension: a dot followed by characters other than a dot, at
    least one. *)
Fixpoint no_dot (s : string) : bool :=
  match s with
  | EmptyString => true
  | String c s' => negb (Ascii.eqb c "."%char) && no_dot s'
  end.

Definition is_extension (ext : string) : Prop :=
  ∃ e, ext = String "."%char e ∧ e ≠ EmptyString ∧ no_dot e = true.

(** An installation whose encoders write a header of 600 and of 100 bytes
    whatever the picture. *)
Definition header_codec : codec :=
  {| jpeg_bytes := fun im _ =>
       (Z.to_N (Pillow.im_width im * Pillow.im_height im / 10) + 600)%N;
     webp_bytes := fun im _ =>
       (Z.to_N (Pillow.im_width im * Pillow.im_height im / 15) + 100)%N;
     webp_supported := true |}.

(** * Properties *)

(** ** The monad *)

Lemma bind_unfold {A B} (m : M A) (k : A -> M B) (w : world) :
  (m ≫= k) w =
  match m w with
  | (Ok a, w') => k a w'
  | (Raise e, w') => (Raise e, w')
  end.
Proof. reflexivity. Qed.

Lemma world_eta (w : world) :
  {| files := files w; console := console w |} = w.
Proof. by destruct w. Qed.

(** ** [Image.save] *)

Section SaveFacts.

Context (pil : codec).

(** The three ways [Image.save] ends: it raises and leaves the files as
    they were; it raises and leaves the file, which was there, cut to
    length zero; it writes what the encoder produced. *)
Lemma Image_save_cases (im : Pillow.image) (p : path) (enc : encoder)
    (quality : Z) (w : world) :
  (∃ e, Image_save pil im p enc quality w = (Raise e, w))
  ∨ (∃ e c, files w !! p = Some (File true c)
       ∧ Image_save pil im p enc quality w
         = (Raise e, {| files := <[p := File true (Garbage 0)]> (files w);
                        console := console w |}))
  ∨ (∃ c, encode pil enc im quality = Ok c
       ∧ (files w !! p = None ∨ ∃ c0, files w !! p = Some (File true c0))
       ∧ Image_save pil im p enc quality w
         = (Ok tt, {| files := <[p := File true c]> (files w);
                      console := console w |})).
Proof.
  remember (Image_save pil im p enc quality w) as r eqn:Hr.
  assert (Hwrite : ∀ created : bool,
    (created = true -> files w !! p = None) ->
    (created = false -> ∃ c, files w !! p = Some (File true c)) ->
    r = try_except (save_handler pil enc im p quality)
          (λ e, (if created then remove_file p else mret ());; raise e)
          {| files := <[p := File true (Garbage 0)]> (files w);
             console := console w |} ->
    (∃ e, r = (Raise e, w))
    ∨ (∃ e c, files w !! p = Some (File true c)
         ∧ r = (Raise e, {| files := <[p := File true (Garbage 0)]> (files w);
                            console := console w |}))
    ∨ (∃ c, encode pil enc im quality = Ok c
         ∧ (files w !! p = None ∨ ∃ c0, files w !! p = Some (File true c0))
         ∧ r = (Ok tt, {| files := <[p := File true c]> (files w);
                          console := console w |}))).
  { clear Hr. intros created Hnew Hold ->. unfold try_except, save_handler.
    rewrite bind_unfold. unfold lift at 1.
    destruct (encode pil enc im quality) as [c|e].
    - right; right. exists c. split; [done|]. split.
      { destruct created; [left|right]; auto. }
      unfold put_file; simpl. by rewrite insert_insert_eq.
    - rewrite bind_unfold. destruct created.
      + left. exists e. unfold remove_file, raise; simpl.
        rewrite delete_insert_eq, delete_id by auto. by rewrite world_eta.
      + right; left. destruct Hold as [c Hc]; [done|]. by exists e, c. }
  unfold Image_save in Hr. rewrite bind_unfold in Hr. unfold lift at 1 in Hr.
  destruct (Pillow.load im) as [[]|e];
    [|left; eexists; rewrite Hr; reflexivity].
  rewrite bind_unfold in Hr.
  assert (Hsup : enc = SaveWEBP ∧ webp_supported pil = false
                 ∨ (enc = SaveJPEG ∨ webp_supported pil = true)).
  { destruct enc, (webp_supported pil); auto. }
  destruct Hsup as [[-> Hsup]|Hsup].
  { rewrite Hsup in Hr. left. eexists. rewrite Hr. reflexivity. }
  assert (Hr' : r =
    (open_wb p;;
     try_except (save_handler pil enc im p quality)
       (λ e, (if bool_decide (files w !! p = None)
              then remove_file p else mret ());; raise e)) w).
  { rewrite Hr. destruct Hsup as [->|Hsup]; [|destruct enc; rewrite ?Hsup];
      reflexivity. }
  clear Hr Hsup. rewrite bind_unfold in Hr'.
  unfold open_wb in Hr'. rewrite bind_unfold in Hr'.
  unfold get_files at 1 in Hr'. cbv beta iota in Hr'.
  destruct (files w !! p) as [[sz|[] c]|] eqn:Hp.
  - left. eexists. rewrite Hr'. reflexivity.
  - rewrite bool_decide_eq_false_2 in Hr' by done.
    apply (Hwrite false); [done|by eexists|exact Hr'].
  - left. eexists. rewrite Hr'. reflexivity.
  - rewrite bool_decide_eq_true_2 in Hr' by done.
    destruct (pathlib.parent p) as [|d0 d] eqn:Hd.
    + apply (Hwrite true); [done|done|exact Hr'].
    + destruct (files w !! (d0 :: d)) as [[sz|wr c]|].
      * apply (Hwrite true); [done|done|exact Hr'].
      * left. eexists. rewrite Hr'. reflexivity.
      * left. eexists. rewrite Hr'. reflexivity.
Qed.

End SaveFacts.

(** ** The outcomes of [optimize_image] *)

Lemma getsize_file (p : path) (w : world) (wr : bool) (c : content) :
  files w !! p = Some (File wr c) ->
  getsize p w = (Ok (content_size c), w).
Proof.
  intros Hp. unfold getsize. rewrite bind_unfold. unfold get_files at 1.
  cbv beta iota. rewrite Hp. by destruct c.
Qed.

Section OutcomeFacts.

Context (pil : codec) (cfg : config).

Lemma outcome_eq (p : path) (w : world) (b : bool) (w1 w2 : world) :
  outcome pil cfg p w b w1 -> w1 = w2 -> outcome pil cfg p w b w2.
Proof. by intros ? <-. Qed.

(** Every call of [optimize_image] returns, in one of the ways [outcome]
    lists. *)
Lemma optimize_image_outcome (p : path) (w : world) :
  ∃ b w', optimize_image pil cfg p w = (Ok b, w')
          ∧ outcome pil cfg p w b w'.
Proof.
  unfold optimize_image, try_except.
  match goal with |- context [match ?body w with _ => _ end] =>
    remember (body w) as r eqn:Hr end.
  (* a failed call: the handler prints the exception and returns False *)
  assert (Hfail : ∀ e fs' tr,
    r = (Raise e, {| files := fs'; console := console w ++ tr |}) ->
    outcome pil cfg p w false
      {| files := fs';
         console := console w ++ tr ++ [PError (pathlib.name p) e] |} ->
    ∃ b w',
      match r with
      | (Ok a, w') => (Ok a, w')
      | (Raise e, w') =>
          (print (PError (pathlib.name p) e);; mret false) w'
      end = (Ok b, w') ∧ outcome pil cfg p w b w').
  { intros e fs' tr -> Hout. eexists _, _. split; [reflexivity|].
    eapply outcome_eq; [exact Hout|]. simpl. by rewrite <- app_assoc. }
  (* Image.open *)
  rewrite bind_unfold in Hr. unfold Image_open at 1 in Hr.
  rewrite bind_unfold in Hr. unfold get_files at 1 in Hr.
  cbv beta iota in Hr.
  assert (Hw : w = {| files := files w; console := console w ++ [] |}).
  { by rewrite app_nil_r, world_eta. }
  destruct (files w !! p) as [[sz|wr [fmt im n|n]]|] eqn:Hp;
    try (rewrite Hw in Hr; eapply Hfail; [exact Hr|apply failed_untouched]).
  unfold mret at 1, M_ret at 1 in Hr.
  (* lines 37-38 *)
  rewrite bind_unfold in Hr.
  assert (Hnorm :
    (if bool_decide (Pillow.im_mode im ∈ [Pillow.RGBA; Pillow.P])
     then lift (Pillow.convert im Pillow.RGB) else mret im) w
    = (normalize im, w)).
  { unfold normalize. by destruct (bool_decide _). }
  rewrite Hnorm in Hr. clear Hnorm.
  pose proof (eq_refl : picture cfg im = picture cfg im) as Hpic.
  pose proof (eq_refl : resized_line cfg p im = resized_line cfg p im) as Hrl.
  unfold picture at 2 in Hpic. unfold resized_line at 2 in Hrl.
  destruct (normalize im) as [img1|e].
  2:{ rewrite Hw in Hr. eapply Hfail; [exact Hr|apply failed_untouched]. }
  (* lines 41-43 *)
  rewrite bind_unfold in Hr.
  assert (Hshrink : ∃ r1,
    (if (Pillow.im_width img1 >? fst (MAX_SIZE cfg))
        || (Pillow.im_height img1 >? snd (MAX_SIZE cfg))
     then
       img ← lift (Pillow.thumbnail img1 (MAX_SIZE cfg));
       print (PResized (pathlib.name p));;
       mret img
     else mret img1) w = r1
    ∧ ((∃ e, picture cfg im = Raise e ∧ r1 = (Raise e, w))
       ∨ (∃ img, picture cfg im = Ok img
            ∧ r1 = (Ok img, {| files := files w;
                               console := console w ++ resized_line cfg p im |})))).
  { eexists. split; [reflexivity|]. fold (oversize cfg img1).
    rewrite Hpic, Hrl. destruct (oversize cfg img1).
    - rewrite bind_unfold. unfold lift at 1.
      destruct (Pillow.thumbnail img1 (MAX_SIZE cfg)) as [img|e].
      + right. by exists img.
      + left. by exists e.
    - right. exists img1. split; [done|]. by rewrite <- Hw. }
  destruct Hshrink as (r1 & Hr1 & Hshrink). rewrite Hr1 in Hr. clear Hr1.
  destruct Hshrink as [(e & _ & ->)|(img & Himg & ->)].
  { rewrite Hw in Hr. eapply Hfail; [exact Hr|apply failed_untouched]. }
  clear Hpic Hrl Hw. set (rl := resized_line cfg p im) in *.
  set (w1 := {| files := files w; console := console w ++ rl |}) in *.
  (* line 46 *)
  rewrite bind_unfold in Hr.
  rewrite (getsize_file p w1 wr (Encoded fmt im n) Hp) in Hr.
  cbv beta iota in Hr.
  change (content_size (Encoded fmt im n)) with n in Hr.
  (* line 47 *)
  rewrite bind_unfold in Hr.
  destruct (Image_save_cases pil img p SaveJPEG (QUALITY_JPG cfg) w1)
    as [[e He]|[(e & c & Hc & He)|(jpg & Hjpg & Hwas & He)]];
    rewrite He in Hr; clear He.
  { eapply Hfail; [exact Hr|apply failed_untouched]. }
  { eapply Hfail; [exact Hr|]. exact (failed_truncated pil cfg p w c rl e Hc). }
  assert (wr = true) as ->.
  { destruct Hwas as [Hwas|[c Hwas]]; simpl in Hwas; congruence. }
  clear Hwas.
  set (w2 := {| files := <[p := File true jpg]> (files w1);
                console := console w1 |}) in *.
  (* line 48 *)
  rewrite bind_unfold in Hr.
  rewrite (getsize_file p w2 true jpg) in Hr by apply lookup_insert_eq.
  cbv beta iota in Hr.
  (* line 49 *)
  rewrite bind_unfold in Hr. unfold lift at 1, truediv at 1 in Hr.
  destruct (Z.of_N n =? 0) eqn:Hn.
  { eapply Hfail; [exact Hr|]. eapply (failed_after_jpeg pil cfg p w); eauto. }
  apply Z.eqb_neq in Hn. assert (Hn' : n ≠ 0%N) by lia. clear Hn.
  (* line 51 *)
  rewrite bind_unfold in Hr. unfold print at 1 in Hr. cbv beta iota in Hr.
  fold (saved_percent n (content_size jpg)) in Hr.
  fold (optimized_line p n (content_size jpg)) in Hr.
  set (ol := optimized_line p n (content_size jpg)) in *.
  set (w3 := {| files := files w2; console := console w2 ++ [ol] |}) in *.
  (* lines 54-60 *)
  rewrite bind_unfold in Hr.
  destruct (CREATE_WEBP cfg) eqn:Hwebp.
  2:{ subst r. eexists _, _. split; [reflexivity|].
      eapply outcome_eq; [eapply (done_jpeg pil cfg p w); eauto|].
      subst w3 w2 w1; simpl. by rewrite <- !app_assoc. }
  rewrite bind_unfold in Hr. unfold lift at 1 in Hr.
  destruct (pathlib.with_suffix p ".webp") as [sib|e] eqn:Hsib.
  2:{ eapply (Hfail _ _ (rl ++ [ol]));
        [rewrite Hr; subst w3 w2 w1; simpl; by rewrite <- !app_assoc|].
      eapply (failed_after_jpeg pil cfg p w); eauto. }
  rewrite bind_unfold in Hr.
  destruct (Image_save_cases pil img sib SaveWEBP (QUALITY_WEBP cfg) w3)
    as [[e He]|[(e & c & Hc & He)|(webp & Hwebpc & _ & He)]];
    rewrite He in Hr; clear He.
  { eapply (Hfail _ _ (rl ++ [ol]));
      [rewrite Hr; subst w3 w2 w1; simpl; by rewrite <- !app_assoc|].
    eapply (failed_after_jpeg pil cfg p w); eauto. }
  { eapply (Hfail _ _ (rl ++ [ol]));
      [rewrite Hr; subst w3 w2 w1; simpl; by rewrite <- !app_assoc|].
    eapply (failed_webp_truncated pil cfg p w); eauto. }
  set (w4 := {| files := <[sib := File true webp]> (files w3);
                console := console w3 |}) in *.
  rewrite bind_unfold in Hr.
  rewrite (getsize_file sib w4 true webp) in Hr by apply lookup_insert_eq.
  cbv beta iota in Hr.
  subst r. eexists _, _. split; [reflexivity|].
  eapply outcome_eq; [eapply (done_webp pil cfg p w); eauto|].
  subst w4 w3 w2 w1; simpl. by rewrite <- !app_assoc.
Qed.

End OutcomeFacts.

(** ** [Image.thumbnail] *)

Section ThumbnailFacts.

Import Pillow.

Lemma Qfloor_quotient (a h : Z) : Qfloor (inject_Z a / inject_Z h) = a / h.
Proof. symmetry. apply Zdiv_Qdiv. Qed.

Lemma Qceiling_quotient (a h : Z) :
  Qceiling (inject_Z a / inject_Z h) = - ((- a) / h).
Proof.
  unfold Qceiling. f_equal. rewrite <- Qfloor_quotient.
  apply Qfloor_comp. rewrite inject_Z_opp. unfold Qdiv. ring.
Qed.

Lemma Qle_quotients (a b c d : Z) :
  0 < b -> 0 < d ->
  (inject_Z a / inject_Z b <= inject_Z c / inject_Z d)%Q <-> a * d <= c * b.
Proof.
  intros Hb Hd. unfold Qle, Qdiv, Qinv, Qmult, inject_Z. simpl.
  destruct b as [|bp|bp], d as [|dp|dp]; try lia. simpl. lia.
Qed.

(** [round_aspect] sees its first argument up to equality of rationals. *)
Lemma round_aspect_comp (p q : Q) (key : Z -> Q) :
  (p == q)%Q -> round_aspect p key = round_aspect q key.
Proof.
  intros Hpq. unfold round_aspect, Qceiling.
  rewrite (Qfloor_comp _ _ Hpq).
  assert (Hopp : (- p == - q)%Q) by (rewrite Hpq; reflexivity).
  rewrite (Qfloor_comp _ _ Hopp). reflexivity.
Qed.

(** Whatever the key, [round_aspect] of a positive quotient [a / h] that
    does not exceed [bound] lies between 1 and [bound], less than one away
    from the quotient. *)
Lemma round_aspect_quotient (a h bound : Z) (key : Z -> Q) :
  0 < a -> 0 < h -> 1 <= bound -> a <= bound * h ->
  let r := round_aspect (inject_Z a / inject_Z h) key in
  1 <= r <= bound ∧ Z.abs (r * h - a) < h.
Proof.
  intros Ha Hh Hb Hab r. subst r. unfold round_aspect.
  rewrite Qfloor_quotient, Qceiling_quotient.
  pose proof (Z.mul_div_le a h Hh) as Hf1.
  pose proof (Z.mul_succ_div_gt a h Hh) as Hf2.
  pose proof (Z.mul_div_le (- a) h Hh) as Hc1.
  pose proof (Z.mul_succ_div_gt (- a) h Hh) as Hc2.
  set (f := a / h) in *. set (g := (- a) / h) in *.
  assert (0 <= f) by (apply Z.div_pos; lia).
  assert (- g <= bound) by nia.
  assert (f <= - g) by nia.
  destruct (Qle_bool _ _); split; try lia; nia.
Qed.

(** The thumbnail of an image that exceeds the box fits in the box. *)
Lemma thumbnail_fits (im im' : image) (x y : Z) :
  0 < im_width im -> 0 < im_height im -> 0 < x -> 0 < y ->
  im_width im > x ∨ im_height im > y ->
  thumbnail im (x, y) = Ok im' ->
  im_mode im' = im_mode im ∧ fits_box (x, y) im im'.
Proof.
  intros Hw Hh Hx Hy Hbig. unfold thumbnail, preserve_aspect_ratio.
  set (w := im_width im) in *. set (h := im_height im) in *.
  replace ((x >=? w) && (y >=? h)) with false
    by (symmetry; apply andb_false_iff; lia).
  replace ((h =? 0) || (y =? 0)) with false
    by (symmetry; apply orb_false_iff; lia).
  assert (Hres : ∀ i r s,
    1 <= r <= x -> 1 <= s <= y ->
    (s = y ∧ Z.abs (r * h - y * w) < h) ∨ (r = x ∧ Z.abs (s * w - x * h) < w) ->
    (if decide (im_size im = (r, s)) then Ok im else resize im (r, s)) = Ok i ->
    im_mode i = im_mode im ∧ fits_box (x, y) im i).
  { intros i r s Hr Hs Hrs. unfold fits_box, resize, load, im_size.
    fold w h. case_decide as Hsz.
    - intros [= <-]. fold w h. simplify_eq. done.
    - destruct (im_loadable im); [|done]. intros [= <-]. done. }
  destruct (Qle_bool _ _) eqn:Hle.
  - apply Qle_bool_iff in Hle.
    apply (proj1 (Qle_quotients _ _ _ _ Hh Hy)) in Hle.
    rewrite (round_aspect_comp _ (inject_Z (y * w) / inject_Z h)); cycle 1.
    { rewrite inject_Z_mult. unfold Qdiv. ring. }
    match goal with |- context [round_aspect _ ?k] =>
      destruct (round_aspect_quotient (y * w) h x k) as [Hr1 Hr2];
        [nia|lia|lia|nia|]; set (r := round_aspect _ k) in * end.
    intros Hi. eapply Hres; [| |left|exact Hi]; [lia|lia|split; [done|lia]].
  - assert (Hlt : x * h < w * y).
    { destruct (Z_lt_le_dec (x * h) (w * y)) as [|Hge]; [done|].
      assert (Qle_bool (inject_Z w / inject_Z h) (inject_Z x / inject_Z y)
              = true) as Hc by (apply Qle_bool_iff, Qle_quotients; lia).
      congruence. }
    replace (Qeq_bool (inject_Z w / inject_Z h) 0) with false; cycle 1.
    { symmetry. apply not_true_iff_false. intros Hq%Qeq_bool_iff.
      unfold Qeq, Qdiv, Qinv, Qmult, inject_Z in Hq.
      destruct h; simpl in Hq; lia. }
    rewrite (round_aspect_comp _ (inject_Z (x * h) / inject_Z w)); cycle 1.
    { rewrite inject_Z_mult. field.
      split; intros Hq; unfold Qeq, inject_Z in Hq; simpl in Hq; lia. }
    match goal with |- context [round_aspect _ ?k] =>
      destruct (round_aspect_quotient (x * h) w y k) as [Hr1 Hr2];
        [nia|lia|lia|nia|]; set (r := round_aspect _ k) in * end.
    intros Hi. eapply Hres; [| |right|exact Hi]; [lia|lia|split; [done|lia]].
Qed.

End ThumbnailFacts.

(** ** The picture that is written *)

Section PictureFacts.

Context (pil : codec) (cfg : config).

Lemma normalize_Ok (im img : Pillow.image) :
  normalize im = Ok img ->
  Pillow.im_width img = Pillow.im_width im
  ∧ Pillow.im_height img = Pillow.im_height im
  ∧ Pillow.im_mode img
    = (if bool_decide (Pillow.im_mode im ∈ [Pillow.RGBA; Pillow.P])
       then Pillow.RGB else Pillow.im_mode im).
Proof.
  unfold normalize, Pillow.convert, Pillow.load.
  destruct (bool_decide _); [destruct (Pillow.im_loadable im)|];
    intros [= <-]; done.
Qed.

Lemma picture_size (im img : Pillow.image) :
  0 < Pillow.im_width im -> 0 < Pillow.im_height im ->
  0 < fst (MAX_SIZE cfg) -> 0 < snd (MAX_SIZE cfg) ->
  picture cfg im = Ok img ->
  if oversize cfg im then fits_box (MAX_SIZE cfg) im img
  else Pillow.im_size img = Pillow.im_size im.
Proof.
  intros Hw Hh Hx Hy. unfold picture.
  destruct (normalize im) as [img1|e] eqn:Hnorm; [|done].
  apply normalize_Ok in Hnorm as (Hw1 & Hh1 & Hm1).
  unfold oversize. rewrite Hw1, Hh1.
  destruct (MAX_SIZE cfg) as [x y]; simpl in *.
  destruct (_ || _) eqn:Hbig.
  - intros Hth. apply thumbnail_fits in Hth as [_ Hfit]; [|lia..|].
    + unfold fits_box in *. by rewrite Hw1, Hh1 in Hfit.
    + apply orb_true_iff in Hbig. lia.
  - intros [= <-]. unfold Pillow.im_size. congruence.
Qed.

(** What an encoder writes has the size of the picture it was given. *)
Lemma encode_Ok (enc : encoder) (img : Pillow.image) (q : Z) (c : content) :
  encode pil enc img q = Ok c ->
  ∃ im' n,
    c = Encoded (match enc with SaveJPEG => JPEG | SaveWEBP => WEBP end) im' n
    ∧ Pillow.im_width im' = Pillow.im_width img
    ∧ Pillow.im_height im' = Pillow.im_height img
    ∧ match enc with
      | SaveJPEG =>
          Pillow.jpeg_rawmode (Pillow.im_mode img) = Some (Pillow.im_mode im')
      | SaveWEBP =>
          Pillow.im_mode im' = Pillow.webp_rawmode (Pillow.im_mode img)
      end.
Proof.
  unfold encode. destruct enc.
  - destruct (_ || _); [done|].
    destruct (Pillow.jpeg_rawmode _) as [m|]; [|done].
    destruct (_ || _); [done|]. intros [= <-]. by eexists _, _.
  - destruct (_ || _); [done|]. intros [= <-]. by eexists _, _.
Qed.

(** After a call that returned [True], the file at [p] holds an image of
    the size of the picture. *)
Lemma optimize_image_true_file (p : path) (w w' : world) :
  optimize_image pil cfg p w = (Ok true, w') ->
  ∃ fmt im n img fmt' im' n',
    files w !! p = Some (File true (Encoded fmt im n))
    ∧ picture cfg im = Ok img
    ∧ n ≠ 0%N
    ∧ files w' !! p = Some (File true (Encoded fmt' im' n'))
    ∧ Pillow.im_width im' = Pillow.im_width img
    ∧ Pillow.im_height im' = Pillow.im_height img
    ∧ (Pillow.jpeg_rawmode (Pillow.im_mode img) = Some (Pillow.im_mode im')
       ∨ Pillow.im_mode im' = Pillow.webp_rawmode (Pillow.im_mode img)).
Proof.
  intros Hrun.
  destruct (optimize_image_outcome pil cfg p w) as (b & w1 & Heq & Hout).
  rewrite Heq in Hrun. injection Hrun as -> ->.
  inversion Hout as [| | | |fmt im n img jpg Hp Hpic Hjpg Hn Hwebp
                     |fmt im n img jpg sib webp Hp Hpic Hjpg Hn Hwebp Hsib Hw];
    subst.
  - apply encode_Ok in Hjpg as (im' & n' & -> & Hw' & Hh' & Hm').
    exists fmt, im, n, img, JPEG, im', n'. simpl.
    rewrite lookup_insert_eq. auto 10.
  - apply encode_Ok in Hjpg as (im' & n' & -> & Hw' & Hh' & Hm').
    apply encode_Ok in Hw as (im2 & n2 & -> & Hw2 & Hh2 & Hm2).
    destruct (decide (sib = p)) as [->|Hne].
    + exists fmt, im, n, img, WEBP, im2, n2. simpl.
      rewrite lookup_insert_eq. auto 10.
    + exists fmt, im, n, img, JPEG, im', n'. simpl.
      rewrite lookup_insert_ne, lookup_insert_eq by done. auto 10.
Qed.

End PictureFacts.

(** C1, as amended.  For every image file of positive width and height and
    every positive maximum size, after a call of [optimize_image] that
    returned [True] the file holds an image such that: when the original
    exceeded the maximum in width or height, its width and height are
    between 1 and the maximum, one of them is the maximum, and the other is
    less than one pixel away from the exactly proportional length (the
    aspect ratio is kept up to rounding to whole pixels); when the original
    exceeded neither bound, its width and height are those of the
    original. *)
Theorem optimize_image_dimensions (pil : codec) (cfg : config) (p : path)
    (w w' : world) (wr : bool) (fmt : format) (im : Pillow.image) (n : N) :
  files w !! p = Some (File wr (Encoded fmt im n)) ->
  0 < Pillow.im_width im -> 0 < Pillow.im_height im ->
  0 < fst (MAX_SIZE cfg) -> 0 < snd (MAX_SIZE cfg) ->
  optimize_image pil cfg p w = (Ok true, w') ->
  ∃ fmt' im' n',
    files w' !! p = Some (File true (Encoded fmt' im' n'))
    ∧ if oversize cfg im then fits_box (MAX_SIZE cfg) im im'
      else Pillow.im_size im' = Pillow.im_size im.
Proof.
  intros Hp Hw Hh Hx Hy Hrun.
  apply optimize_image_true_file in Hrun
    as (fmt0 & im0 & n0 & img & fmt' & im' & n' & Hp0 & Hpic & _ & Hp'
        & Hw' & Hh' & _).
  rewrite Hp in Hp0. injection Hp0 as -> -> -> ->.
  exists fmt', im', n'. split; [done|].
  apply picture_size in Hpic; [|done..].
  destruct (oversize cfg im0).
  - unfold fits_box in *. destruct (MAX_SIZE cfg) as [x y].
    by rewrite Hw', Hh'.
  - unfold Pillow.im_size in *. congruence.
Qed.

(** A run of the script's configuration on a photograph of 4000x3000. *)
Lemma optimize_image_dimensions_witness :
  ∃ fmt' im' n',
    files (optimize_image sample_codec script_config ["Finlande"; "a.jpg"]
             (one_file "a.jpg"
                (Encoded JPEG (photo Pillow.RGB 4000 3000) 5000000))).2
      !! ["Finlande"; "a.jpg"]
    = Some (File true (Encoded fmt' im' n'))
    ∧ fits_box (2000, 2000) (photo Pillow.RGB 4000 3000) im'.
Proof.
  apply (optimize_image_dimensions sample_codec script_config
           ["Finlande"; "a.jpg"]
           (one_file "a.jpg"
              (Encoded JPEG (photo Pillow.RGB 4000 3000) 5000000))
           _ true JPEG (photo Pillow.RGB 4000 3000) 5000000);
    [reflexivity | simpl; lia | simpl; lia | simpl; lia | simpl; lia
    | vm_compute; reflexivity].
Defined.

(** C1, as stated, fails: the script's configuration turns a photograph of
    2001x2000 into one of 2000x1999, and one of 4000x1 into one of 2000x1;
    neither has the aspect ratio of its original. *)
Lemma aspect_ratio_not_preserved :
  let run im :=
    optimize_image sample_codec script_config ["Finlande"; "a.jpg"]
      (one_file "a.jpg" (Encoded JPEG im 900000)) in
  ((run (photo Pillow.RGB 2001 2000)).1 = Ok true
   ∧ ∃ n', files (run (photo Pillow.RGB 2001 2000)).2 !! ["Finlande"; "a.jpg"]
           = Some (File true (Encoded JPEG (photo Pillow.RGB 2000 1999) n'))
   ∧ ¬ aspect_ratio_preserved (photo Pillow.RGB 2001 2000)
         (photo Pillow.RGB 2000 1999))
  ∧ ((run (photo Pillow.RGB 4000 1)).1 = Ok true
     ∧ ∃ n', files (run (photo Pillow.RGB 4000 1)).2 !! ["Finlande"; "a.jpg"]
             = Some (File true (Encoded JPEG (photo Pillow.RGB 2000 1) n'))
     ∧ ¬ aspect_ratio_preserved (photo Pillow.RGB 4000 1)
           (photo Pillow.RGB 2000 1)).
Proof.
  cbv zeta. split; (split; [vm_compute; reflexivity|]).
  - eexists. split; [vm_compute; reflexivity|].
    unfold aspect_ratio_preserved; simpl. lia.
  - eexists. split; [vm_compute; reflexivity|].
    unfold aspect_ratio_preserved; simpl. lia.
Qed.

(** ** Modes with an alpha channel or a palette *)

Section ModeFacts.

Context (pil : codec) (cfg : config).

Lemma thumbnail_mode (im im' : Pillow.image) (size : Z * Z) :
  Pillow.thumbnail im size = Ok im' -> Pillow.im_mode im' = Pillow.im_mode im.
Proof.
  unfold Pillow.thumbnail, Pillow.resize, Pillow.load.
  destruct (Pillow.preserve_aspect_ratio size im) as [[size'|]|e]; [| |done].
  - case_decide; [by intros [= <-]|].
    destruct (Pillow.im_loadable im); [|done]. by intros [= <-].
  - by intros [= <-].
Qed.

Lemma picture_mode_any (im img : Pillow.image) :
  picture cfg im = Ok img ->
  Pillow.im_mode img
  = (if bool_decide (Pillow.im_mode im ∈ [Pillow.RGBA; Pillow.P])
     then Pillow.RGB else Pillow.im_mode im).
Proof.
  unfold picture. destruct (normalize im) as [img1|e] eqn:Hnorm; [|done].
  apply normalize_Ok in Hnorm as (_ & _ & Hm1).
  destruct (oversize cfg img1).
  - intros Hth%thumbnail_mode. congruence.
  - by intros [= <-].
Qed.

(** The part of C2 the code does: an image of mode [RGBA] or [P] is written
    as a three-channel image. *)
Lemma optimize_image_RGBA_P_converted (p : path) (w w' : world) (wr : bool)
    (fmt : format) (im : Pillow.image) (n : N) :
  files w !! p = Some (File wr (Encoded fmt im n)) ->
  Pillow.im_mode im ∈ [Pillow.RGBA; Pillow.P] ->
  optimize_image pil cfg p w = (Ok true, w') ->
  ∃ fmt' im' n',
    files w' !! p = Some (File true (Encoded fmt' im' n'))
    ∧ Pillow.im_mode im' = Pillow.RGB.
Proof.
  intros Hp Hm Hrun.
  apply optimize_image_true_file in Hrun
    as (fmt0 & im0 & n0 & img & fmt' & im' & n' & Hp0 & Hpic & _ & Hp'
        & _ & _ & Hm').
  rewrite Hp in Hp0. injection Hp0 as -> -> -> ->.
  exists fmt', im', n'. split; [done|].
  apply picture_mode_any in Hpic. rewrite bool_decide_eq_true_2 in Hpic by done.
  rewrite Hpic in Hm'. destruct Hm' as [Hm'|Hm']; simpl in Hm'; congruence.
Qed.

(** The modes the test of line 37 leaves out: a call on an image that has
    an alpha channel or a palette and whose mode is neither [RGBA] nor [P]
    never returns [True], and never leaves a converted image. *)
Lemma optimize_image_other_alpha (p : path) (w : world) (wr : bool)
    (fmt : format) (im : Pillow.image) (n : N) :
  files w !! p = Some (File wr (Encoded fmt im n)) ->
  Pillow.has_alpha (Pillow.im_mode im) || Pillow.is_palette (Pillow.im_mode im)
  = true ->
  Pillow.im_mode im ∉ [Pillow.RGBA; Pillow.P] ->
  ∃ w', optimize_image pil cfg p w = (Ok false, w')
        ∧ (files w' !! p = files w !! p
           ∨ files w' !! p = Some (File true (Garbage 0))).
Proof.
  intros Hp Halpha Hm.
  assert (Hraw : ∀ img, picture cfg im = Ok img ->
            Pillow.jpeg_rawmode (Pillow.im_mode img) = None).
  { intros img Hpic%picture_mode_any.
    rewrite bool_decide_eq_false_2 in Hpic by done. rewrite Hpic.
    destruct (Pillow.im_mode im); try done; exfalso; apply Hm; set_solver. }
  assert (Hno : ∀ img jpg, picture cfg im = Ok img ->
            encode pil SaveJPEG img (QUALITY_JPG cfg) = Ok jpg -> False).
  { intros img jpg Hpic Henc. apply Hraw in Hpic.
    apply encode_Ok in Henc as (im' & n' & _ & _ & _ & Hm').
    congruence. }
  destruct (optimize_image_outcome pil cfg p w) as (b & w1 & Heq & Hout).
  inversion Hout as [tr e|c tr e Hc|fmt0 im0 n0 img jpg tr e Hp0 Hpic Hjpg
                     |fmt0 im0 n0 img jpg sib c tr e Hp0 Hpic Hjpg
                     |fmt0 im0 n0 img jpg Hp0 Hpic Hjpg
                     |fmt0 im0 n0 img jpg sib webp Hp0 Hpic Hjpg];
    subst; try (rewrite Hp in Hp0; injection Hp0 as -> -> -> ->;
                exfalso; by eapply Hno).
  - eexists. split; [exact Heq|]. by left.
  - eexists. split; [exact Heq|]. right. simpl. apply lookup_insert_eq.
Qed.

End ModeFacts.

(** C2 fails on the code: a file named [x.jpg] that holds a PNG image of
    mode [LA] (grey with alpha) is not converted.  The call returns
    [False] with the error of the JPEG encoder, and the file is left cut to
    length zero. *)
Theorem optimize_image_LA_not_converted :
  let w := one_file "x.jpg" (Encoded PNG (photo Pillow.LA 100 100) 5000) in
  Pillow.has_alpha Pillow.LA = true
  ∧ optimize_image sample_codec script_config ["Finlande"; "x.jpg"] w
    = (Ok false,
       {| files := <[ ["Finlande"; "x.jpg"] := File true (Garbage 0) ]>
                     (files w);
          console := [PError "x.jpg"
                        (OSError "cannot write mode LA as JPEG")] |}).
Proof. split; vm_compute; reflexivity. Qed.

(** ** The batch loop *)

Section LoopFacts.

Context (pil : codec) (cfg : config).

Lemma getsize_is_Some (p : path) (w : world) :
  is_Some (files w !! p) -> ∃ n, getsize p w = (Ok n, w).
Proof.
  intros [nd Hp]. unfold getsize. rewrite bind_unfold.
  unfold get_files at 1. cbv beta iota. rewrite Hp.
  destruct nd as [sz|wr [fmt im n|n]]; by eexists.
Qed.

(** No call of [optimize_image] removes a path. *)
Lemma outcome_keeps (p : path) (w w' : world) (b : bool) :
  outcome pil cfg p w b w' ->
  ∀ q, is_Some (files w !! q) -> is_Some (files w' !! q).
Proof.
  intros Hout q Hq. inversion Hout; subst; simpl;
    repeat (apply lookup_insert_is_Some'; right); done.
Qed.

(** One turn of the loop over the images. *)
Lemma for_images_cons (p : path) (rest : list path) (acc : totals)
    (w : world) :
  is_Some (files w !! p) ->
  ∃ n b w1 n',
    getsize p w = (Ok n, w)
    ∧ optimize_image pil cfg p w = (Ok b, w1)
    ∧ outcome pil cfg p w b w1
    ∧ getsize p w1 = (Ok n', w1)
    ∧ for_images pil cfg (p :: rest) acc w
      = for_images pil cfg rest (if b then add_file acc n n' else acc) w1.
Proof.
  intros Hp. destruct (getsize_is_Some p w Hp) as [n Hn].
  destruct (optimize_image_outcome pil cfg p w) as (b & w1 & Hrun & Hout).
  destruct (getsize_is_Some p w1 (outcome_keeps _ _ _ _ Hout p Hp))
    as [n' Hn'].
  exists n, b, w1, n'. repeat (split; [done|]).
  cbn [for_images]. rewrite bind_unfold, Hn. rewrite bind_unfold, Hrun.
  rewrite bind_unfold. destruct b; [|done].
  rewrite bind_unfold, Hn'. done.
Qed.

(** What [Path.glob] lists. *)
Lemma glob_spec (d : path) (pat : string) (w : world) :
  ∃ l, pathlib.glob d pat w = (Ok l, w)
       ∧ ∀ p, p ∈ l ↔
           (∃ sz, files w !! d = Some (Dir sz))
           ∧ is_Some (files w !! p)
           ∧ pathlib.is_child d p
           ∧ pathlib.fnmatch pat (pathlib.name p) = true.
Proof.
  unfold pathlib.glob. rewrite bind_unfold. unfold get_files at 1.
  cbv beta iota.
  destruct (files w !! d) as [[sz|wr c]|] eqn:Hd.
  - eexists. split; [reflexivity|]. intros p.
    unfold pathlib.iterdir.
    rewrite list_elem_of_filter, list_elem_of_filter, list_elem_of_fmap.
    split.
    + intros (Hm & Hc & [k nd] & -> & Hin).
      apply elem_of_map_to_list in Hin. simpl in *.
      split; [by eexists|]. split; [by eexists|].
      split; [done|]. by apply Is_true_true.
    + intros (_ & [nd Hp] & Hc & Hm). split; [by apply Is_true_true|].
      split; [done|]. exists (p, nd). split; [done|].
      by apply elem_of_map_to_list.
  - exists []. split; [reflexivity|]. intros p. split.
    + by intros ?%elem_of_nil.
    + by intros [[sz [=]] _].
  - exists []. split; [reflexivity|]. intros p. split.
    + by intros ?%elem_of_nil.
    + by intros [[sz [=]] _].
Qed.


(** What line 88 lists. *)
Lemma images_of_spec (d : path) (w : world) :
  ∃ l, images_of d w = (Ok l, w)
       ∧ ∀ p, p ∈ l ↔
           (∃ sz, files w !! d = Some (Dir sz))
           ∧ is_Some (files w !! p)
           ∧ pathlib.is_child d p
           ∧ (pathlib.fnmatch "*.jpg" (pathlib.name p) = true
              ∨ pathlib.fnmatch "*.JPG" (pathlib.name p) = true).
Proof.
  unfold images_of. rewrite bind_unfold.
  destruct (glob_spec d "*.jpg" w) as (lower & -> & Hlower).
  rewrite bind_unfold.
  destruct (glob_spec d "*.JPG" w) as (upper & -> & Hupper).
  exists (lower ++ upper). split; [done|]. intros p.
  rewrite elem_of_app, Hlower, Hupper. tauto.
Qed.


End LoopFacts.

(** C3 fails on the code: line 91 reads the size of the file before the
    call of [optimize_image], outside its [try].  When a listed path cannot
    be read (the name is in the folder and the file is not there, as for a
    symbolic link whose target is missing), [os.path.getsize] raises
    [FileNotFoundError] and the exception leaves the loop: nothing is
    printed, no file is touched, and the images that come after it are not
    processed. *)
Theorem for_images_getsize_escapes (pil : codec) (cfg : config) (p : path)
    (rest : list path) (acc : totals) (w : world) :
  files w !! p = None ->
  for_images pil cfg (p :: rest) acc w = (Raise FileNotFoundError, w).
Proof.
  intros Hp. cbn [for_images]. rewrite bind_unfold.
  unfold getsize at 1. rewrite bind_unfold. unfold get_files at 1.
  cbv beta iota. by rewrite Hp.
Qed.

(** The folder lists [a.jpg], which is not there, before the photograph
    [b.jpg]: the loop raises and [b.jpg] is left as it was. *)
Lemma for_images_getsize_escapes_witness :
  for_images sample_codec script_config
    [ ["Finlande"; "a.jpg"]; ["Finlande"; "b.jpg"] ] no_totals
    (one_file "b.jpg" (Encoded JPEG (photo Pillow.RGB 4000 3000) 5000000))
  = (Raise FileNotFoundError,
     one_file "b.jpg" (Encoded JPEG (photo Pillow.RGB 4000 3000) 5000000)).
Proof.
  apply (for_images_getsize_escapes sample_codec script_config
           ["Finlande"; "a.jpg"] [ ["Finlande"; "b.jpg"] ] no_totals
           (one_file "b.jpg"
              (Encoded JPEG (photo Pillow.RGB 4000 3000) 5000000))).
  reflexivity.
Defined.

(** C4, as amended.  A call of [optimize_image] that succeeds returns the
    flag [True] and nothing else.  The sizes are not in the returned value:
    the call prints the original size and the size of the JPEG it wrote (in
    whole KiB, with the percentage saved), and the loop of [main] reads the
    size of the file itself, before and after the call, and adds the two to
    its counters.  The original size is never zero. *)
Theorem optimize_image_reports_sizes (pil : codec) (cfg : config) (p : path)
    (w w' : world) :
  optimize_image pil cfg p w = (Ok true, w') ->
  ∃ original_size new_size,
    getsize p w = (Ok original_size, w)
    ∧ original_size ≠ 0%N
    ∧ optimized_line p original_size new_size ∈ console w'
    ∧ (pathlib.with_suffix p ".webp" ≠ Ok p ->
       getsize p w' = (Ok new_size, w'))
    ∧ ∀ rest acc, ∃ size_after,
        getsize p w' = (Ok size_after, w')
        ∧ for_images pil cfg (p :: rest) acc w
          = for_images pil cfg rest (add_file acc original_size size_after) w'.
Proof.
  intros Hrun.
  destruct (optimize_image_outcome pil cfg p w) as (b & w1 & Heq & Hout).
  rewrite Heq in Hrun. injection Hrun as -> ->.
  assert (Hloop : ∀ n, getsize p w = (Ok n, w) ->
    ∀ rest acc, ∃ size_after,
      getsize p w' = (Ok size_after, w')
      ∧ for_images pil cfg (p :: rest) acc w
        = for_images pil cfg rest (add_file acc n size_after) w').
  { intros n Hn rest acc.
    destruct (for_images_cons pil cfg p rest acc w)
      as (n0 & b & w1 & n' & Hn0 & Hrun & _ & Hn' & ->).
    { rewrite <- not_eq_None_Some. intros Hnone. unfold getsize in Hn.
      rewrite bind_unfold in Hn. unfold get_files at 1 in Hn.
      cbv beta iota in Hn. by rewrite Hnone in Hn. }
    rewrite Heq in Hrun. injection Hrun as <- <-.
    rewrite Hn in Hn0. injection Hn0 as <-. by exists n'. }
  inversion Hout as [| | | |fmt im n img jpg Hp Hpic Hjpg Hn Hwebp
                     |fmt im n img jpg sib webp Hp Hpic Hjpg Hn Hwebp Hsib Hw];
    subst; exists n, (content_size jpg);
    pose proof (getsize_file _ _ _ _ Hp) as Hsize;
    (split; [done|]); (split; [done|]); simpl.
  - split; [set_solver|]. split; [|by apply Hloop].
    intros _. eapply getsize_file. simpl. apply lookup_insert_eq.
  - split; [set_solver|]. split; [|by apply Hloop].
    intros Hne. eapply getsize_file. simpl.
    rewrite lookup_insert_ne by congruence. apply lookup_insert_eq.
Qed.

(** The photograph of 4000x3000 and 5000000 bytes: 4882 KiB before. *)
Lemma optimize_image_reports_sizes_witness :
  ∃ original_size new_size,
    getsize ["Finlande"; "a.jpg"]
      (one_file "a.jpg" (Encoded JPEG (photo Pillow.RGB 4000 3000) 5000000))
    = (Ok original_size,
       one_file "a.jpg" (Encoded JPEG (photo Pillow.RGB 4000 3000) 5000000))
    ∧ original_size ≠ 0%N
    ∧ optimized_line ["Finlande"; "a.jpg"] original_size new_size
      ∈ console
          (optimize_image sample_codec script_config ["Finlande"; "a.jpg"]
             (one_file "a.jpg"
                (Encoded JPEG (photo Pillow.RGB 4000 3000) 5000000))).2.
Proof.
  destruct (optimize_image_reports_sizes sample_codec script_config
              ["Finlande"; "a.jpg"]
              (one_file "a.jpg"
                 (Encoded JPEG (photo Pillow.RGB 4000 3000) 5000000))
              (optimize_image sample_codec script_config ["Finlande"; "a.jpg"]
                 (one_file "a.jpg"
                    (Encoded JPEG (photo Pillow.RGB 4000 3000) 5000000))).2)
    as (o & n & H1 & H2 & H3 & _); [vm_compute; reflexivity|].
  exists o, n. auto.
Defined.

(** C4, as stated, fails: two calls that succeed on files of different
    sizes return the same value, so no function reads the sizes off it. *)
Lemma result_carries_no_sizes : ¬ ∃ sizes_of, carries_sizes sizes_of.
Proof.
  intros [sizes_of Hcarries].
  pose (run n :=
    optimize_image sample_codec script_config ["Finlande"; "a.jpg"]
      (one_file "a.jpg" (Encoded JPEG (photo Pillow.RGB 400 300) n))).
  assert (H1 : sizes_of true = (5000%N, 12600%N)).
  { apply (Hcarries sample_codec script_config ["Finlande"; "a.jpg"]
             (one_file "a.jpg" (Encoded JPEG (photo Pillow.RGB 400 300) 5000))
             (run 5000%N).2); vm_compute; reflexivity. }
  assert (H2 : sizes_of true = (90000%N, 12600%N)).
  { apply (Hcarries sample_codec script_config ["Finlande"; "a.jpg"]
             (one_file "a.jpg" (Encoded JPEG (photo Pillow.RGB 400 300) 90000))
             (run 90000%N).2); vm_compute; reflexivity. }
  congruence.
Qed.

(** ** [Path.glob] *)

Section GlobFacts.

Lemma append_nil_l (t : string) : EmptyString +:+ t = t.
Proof. reflexivity. Qed.

Lemma append_cons (c : ascii) (s t : string) :
  String c s +:+ t = String c (s +:+ t).
Proof. reflexivity. Qed.

(** A literal pattern matches itself only. *)
Lemma fnmatch_literal (pat nm : string) :
  literal pat = true -> pathlib.fnmatch pat nm = true ↔ nm = pat.
Proof.
  revert nm. induction pat as [|c pat IH]; intros nm Hlit; simpl.
  - by rewrite bool_decide_eq_true.
  - simpl in Hlit. apply andb_true_iff in Hlit as [Hc Hlit].
    apply andb_true_iff in Hc as [Hstar Hq].
    apply negb_true_iff in Hstar, Hq. rewrite Hstar, Hq. simpl.
    destruct nm as [|d nm]; [done|].
    rewrite andb_true_iff, Ascii.eqb_eq, IH by done.
    split; [by intros [-> ->]|by intros [= -> ->]].
Qed.

(** A star matches any run of characters. *)
Lemma fnmatch_star (pat nm : string) :
  pathlib.fnmatch (String "*"%char pat) nm = true
  ↔ ∃ pre rest, nm = pre +:+ rest ∧ pathlib.fnmatch pat rest = true.
Proof.
  simpl. induction nm as [|c nm IH].
  - rewrite orb_false_r. split.
    + intros H. by exists EmptyString, EmptyString.
    + intros (pre & rest & Heq & H).
      destruct pre; [|by rewrite append_cons in Heq].
      rewrite append_nil_l in Heq. by subst.
  - rewrite orb_true_iff, IH. split.
    + intros [H|(pre & rest & -> & H)].
      * by exists EmptyString, (String c nm).
      * by exists (String c pre), rest.
    + intros (pre & rest & Heq & H). destruct pre as [|d pre].
      * left. rewrite append_nil_l in Heq. by subst.
      * right. rewrite append_cons in Heq. injection Heq as -> ->.
        by exists pre, rest.
Qed.

Lemma fnmatch_star_literal (ext nm : string) :
  literal ext = true ->
  pathlib.fnmatch (String "*"%char ext) nm = true ↔ ∃ stem, nm = stem +:+ ext.
Proof.
  intros Hlit. rewrite fnmatch_star. split.
  - intros (pre & rest & -> & H). apply fnmatch_literal in H; [|done].
    subst. by exists pre.
  - intros [stem ->]. exists stem, ext. split; [done|].
    by apply fnmatch_literal.
Qed.

(** The entries of a directory are the paths one name below it. *)
Lemma is_child_snoc (d p : path) :
  pathlib.is_child d p ↔ ∃ nm, p = d ++ [nm] ∧ pathlib.name p = nm.
Proof.
  unfold pathlib.is_child, pathlib.parent, pathlib.name. split.
  - intros [Hne <-]. destruct p as [|x p _] using rev_ind; [done|].
    exists x. rewrite length_app, last_snoc. simpl.
    replace (length p + 1 - 1)%nat with (length p) by lia.
    by rewrite take_app_length.
  - intros (nm & -> & _). split; [by destruct d|].
    rewrite length_app. simpl.
    replace (length d + 1 - 1)%nat with (length d) by lia.
    by rewrite take_app_length.
Qed.

End GlobFacts.

(** C5, as amended.  In a folder that is a directory, line 88 selects a
    path if and only if it is an entry of that folder itself (the folder's
    path and one name) whose name ends in [.jpg] or in [.JPG], the two
    spellings the code lists; the match is case-sensitive, and nothing
    below a sub-folder is selected. *)
Theorem images_of_selects (folder_path : path) (w : world) (sz : N) :
  files w !! folder_path = Some (Dir sz) ->
  ∃ images,
    images_of folder_path w = (Ok images, w)
    ∧ ∀ p, p ∈ images ↔
        is_Some (files w !! p)
        ∧ ∃ stem, p = folder_path ++ [stem +:+ ".jpg"]
                  ∨ p = folder_path ++ [stem +:+ ".JPG"].
Proof.
  intros Hd. destruct (images_of_spec folder_path w) as (images & Hrun & Hin).
  exists images. split; [done|]. intros p. rewrite Hin, is_child_snoc.
  rewrite (fnmatch_star_literal ".jpg"), (fnmatch_star_literal ".JPG")
    by reflexivity.
  split.
  - intros (_ & Hp & (nm & -> & Hnm) & Hext). split; [done|].
    rewrite Hnm in Hext. destruct Hext as [[stem ->]|[stem ->]];
      exists stem; auto.
  - intros (Hp & stem & Hstem). split; [by exists sz|]. split; [done|].
    assert (Hname : ∀ nm, pathlib.name (folder_path ++ [nm]) = nm).
    { intros nm. unfold pathlib.name. by rewrite last_snoc. }
    destruct Hstem as [->| ->]; rewrite Hname.
    + split; [by eexists|]. left. by exists stem.
    + split; [by eexists|]. right. by exists stem.
Qed.

(** A folder with one photograph [a.jpg]. *)
Lemma images_of_selects_witness :
  ∃ images,
    images_of ["Finlande"]
      (one_file "a.jpg" (Encoded JPEG (photo Pillow.RGB 4000 3000) 5000000))
    = (Ok images,
       one_file "a.jpg" (Encoded JPEG (photo Pillow.RGB 4000 3000) 5000000))
    ∧ ["Finlande"; "a.jpg"] ∈ images.
Proof.
  destruct (images_of_selects ["Finlande"]
              (one_file "a.jpg"
                 (Encoded JPEG (photo Pillow.RGB 4000 3000) 5000000)) 4096)
    as (images & Hrun & Hin); [reflexivity|].
  exists images. split; [exact Hrun|]. apply Hin.
  split; [by eexists|]. exists "a". by left.
Defined.

(** C5, as stated, fails: a file [a.Jpg] in the folder has the extension
    [.jpg] up to case, and is not selected. *)
Lemma mixed_case_not_selected :
  let w := one_file "a.Jpg"
             (Encoded JPEG (photo Pillow.RGB 4000 3000) 5000000) in
  ext_matches_nocase "a.Jpg"
  ∧ is_Some (files w !! ["Finlande"; "a.Jpg"])
  ∧ images_of ["Finlande"] w = (Ok [], w).
Proof.
  cbv zeta. split; [reflexivity|]. split; [by eexists|].
  vm_compute. reflexivity.
Qed.

(** ** [PurePath.with_suffix] *)

Section SuffixFacts.

Lemma append_nil_r (s : string) : s +:+ EmptyString = s.
Proof. induction s as [|c s IH]; [done|]. by rewrite append_cons, IH. Qed.

Lemma substring_all (s : string) :
  String.substring 0 (String.length s) s = s.
Proof. induction s as [|c s IH]; [done|]. simpl. by rewrite IH. Qed.

Lemma length_substring (nm : string) (i : nat) :
  String.length (String.substring i (String.length nm - i) nm)
  = (String.length nm - i)%nat.
Proof.
  revert i. induction nm as [|c nm IH]; intros i.
  - by destruct i.
  - destruct i as [|i]; [|apply IH].
    by rewrite Nat.sub_0_r, substring_all.
Qed.

Lemma substring_split (nm : string) (i : nat) :
  (i <= String.length nm)%nat ->
  String.substring 0 i nm +:+ String.substring i (String.length nm - i) nm
  = nm.
Proof.
  revert i. induction nm as [|c nm IH]; intros i Hi.
  - simpl in Hi. by replace i with 0%nat by lia.
  - destruct i as [|i].
    + by rewrite Nat.sub_0_r, substring_all.
    + simpl. rewrite append_cons. f_equal. apply IH. simpl in Hi. lia.
Qed.

(** The name [with_suffix] gives: the stem of the old name, followed by the
    new suffix, in the same directory. *)
Lemma with_suffix_stem (p sib : path) (sfx : string) :
  pathlib.with_suffix p sfx = Ok sib ->
  pathlib.parent sib = pathlib.parent p
  ∧ ∃ stem, pathlib.name p = stem +:+ pathlib.suffix (pathlib.name p)
            ∧ pathlib.name sib = stem +:+ sfx.
Proof.
  unfold pathlib.with_suffix. case_decide as Hnm; [done|].
  intros [= <-].
  assert (Hname : ∀ nm, pathlib.name (pathlib.parent p ++ [nm]) = nm).
  { intros nm. unfold pathlib.name. by rewrite last_snoc. }
  assert (Hparent : ∀ nm,
            pathlib.parent (pathlib.parent p ++ [nm]) = pathlib.parent p).
  { intros nm. unfold pathlib.parent at 1. rewrite length_app. simpl.
    replace (length (pathlib.parent p) + 1 - 1)%nat
      with (length (pathlib.parent p)) by lia.
    by rewrite take_app_length. }
  rewrite Hname, Hparent. split; [done|].
  set (nm := pathlib.name p) in *.
  case_decide as Hsfx.
  - exists nm. by rewrite Hsfx, append_nil_r.
  - unfold pathlib.suffix in *.
    destruct (pathlib.rfind "." nm) as [i|]; [|done].
    destruct (_ && _) eqn:Hi; [|done].
    apply andb_true_iff in Hi as [_ Hi%Nat.ltb_lt].
    rewrite length_substring.
    replace (String.length nm - (String.length nm - i))%nat with i by lia.
    exists (String.substring 0 i nm). split; [|done].
    symmetry. apply substring_split. lia.
Qed.

End SuffixFacts.

(** C6.  Whatever the path and the state of the files, a call of
    [optimize_image] returns and
    - leaves every path other than [p] and the WebP sibling of [p] as it
      was, the sibling too when [CREATE_WEBP] is off;
    - removes no path;
    - makes a new path only when it succeeds with [CREATE_WEBP] on, and
      then the new path is the sibling;
    - when it succeeds with [CREATE_WEBP] on, leaves at the sibling a WebP
      file; the sibling is in the directory of [p], and its name is the
      stem of the name of [p] followed by [.webp];
    - with [CREATE_WEBP] off, leaves the set of paths as it was. *)
Theorem optimize_image_frame (pil : codec) (cfg : config) (p : path)
    (w : world) :
  ∃ b w',
    optimize_image pil cfg p w = (Ok b, w')
    ∧ (∀ q, q ≠ p ->
         ¬ (CREATE_WEBP cfg = true ∧ pathlib.with_suffix p ".webp" = Ok q) ->
         files w' !! q = files w !! q)
    ∧ (∀ q, is_Some (files w !! q) -> is_Some (files w' !! q))
    ∧ (∀ q, files w !! q = None -> is_Some (files w' !! q) ->
         b = true ∧ CREATE_WEBP cfg = true
         ∧ pathlib.with_suffix p ".webp" = Ok q)
    ∧ (b = true -> CREATE_WEBP cfg = true ->
       ∃ sib stem im n,
         pathlib.with_suffix p ".webp" = Ok sib
         ∧ files w' !! sib = Some (File true (Encoded WEBP im n))
         ∧ pathlib.parent sib = pathlib.parent p
         ∧ pathlib.name p = stem +:+ pathlib.suffix (pathlib.name p)
         ∧ pathlib.name sib = stem +:+ ".webp")
    ∧ (CREATE_WEBP cfg = false -> dom (files w') = dom (files w)).
Proof.
  destruct (optimize_image_outcome pil cfg p w) as (b & w' & Hrun & Hout).
  exists b, w'. split; [done|].
  assert (Hkeep : ∀ q, is_Some (files w !! q) -> is_Some (files w' !! q))
    by (by eapply outcome_keeps).
  assert (Hnew : ∀ q, files w !! q = None -> is_Some (files w' !! q) ->
            b = true ∧ CREATE_WEBP cfg = true
            ∧ pathlib.with_suffix p ".webp" = Ok q).
  { intros q Hnone Hsome.
    inversion Hout as [tr e|c tr e Hc|fmt0 im0 n0 img jpg tr e Hp0 Hpic Hjpg
                       |fmt0 im0 n0 img jpg sib c tr e Hp0 Hpic Hjpg Hcfg Hsib Hc
                       |fmt0 im0 n0 img jpg Hp0 Hpic Hjpg Hn Hcfg
                       |fmt0 im0 n0 img jpg sib webp Hp0 Hpic Hjpg Hn Hcfg Hsib];
      subst; simpl in Hsome.
    - rewrite Hnone in Hsome. by destruct Hsome.
    - apply lookup_insert_is_Some in Hsome as [<-|[_ Hsome]]; [congruence|].
      rewrite Hnone in Hsome. by destruct Hsome.
    - apply lookup_insert_is_Some in Hsome as [<-|[_ Hsome]]; [congruence|].
      rewrite Hnone in Hsome. by destruct Hsome.
    - apply lookup_insert_is_Some in Hsome as [<-|[_ Hsome]].
      + exfalso. rewrite lookup_insert in Hc. case_decide; congruence.
      + apply lookup_insert_is_Some in Hsome as [<-|[_ Hsome]]; [congruence|].
        rewrite Hnone in Hsome. by destruct Hsome.
    - apply lookup_insert_is_Some in Hsome as [<-|[_ Hsome]]; [congruence|].
      rewrite Hnone in Hsome. by destruct Hsome.
    - apply lookup_insert_is_Some in Hsome as [<-|[_ Hsome]]; [done|].
      apply lookup_insert_is_Some in Hsome as [<-|[_ Hsome]]; [congruence|].
      rewrite Hnone in Hsome. by destruct Hsome. }
  split; [|split; [done|split; [done|split]]].
  - intros q Hq Hsibq.
    inversion Hout as [tr e|c tr e Hc|fmt0 im0 n0 img jpg tr e Hp0 Hpic Hjpg
                       |fmt0 im0 n0 img jpg sib c tr e Hp0 Hpic Hjpg Hcfg Hsib Hc
                       |fmt0 im0 n0 img jpg Hp0 Hpic Hjpg Hn Hcfg
                       |fmt0 im0 n0 img jpg sib webp Hp0 Hpic Hjpg Hn Hcfg Hsib];
      subst; simpl; rewrite ?lookup_insert_ne; try done;
      intros ->; by apply Hsibq.
  - intros -> Hcfg.
    inversion Hout as [| | | |fmt0 im0 n0 img jpg Hp0 Hpic Hjpg Hn Hcfg'
                       |fmt0 im0 n0 img jpg sib webp Hp0 Hpic Hjpg Hn Hcfg'
                          Hsib Hwebp];
      subst; [congruence|].
    destruct (with_suffix_stem _ _ _ Hsib) as (Hparent & stem & Hstem & Hname).
    apply encode_Ok in Hwebp as (im & n & -> & _).
    exists sib, stem, im, n. simpl. rewrite lookup_insert_eq. done.
  - intros Hcfg. apply set_eq. intros q. rewrite !elem_of_dom. split.
    + intros Hsome. destruct (files w !! q) eqn:Hq; [done|].
      destruct (Hnew q Hq Hsome) as (_ & Hcfg' & _). congruence.
    + apply Hkeep.
Qed.

(** ** [main] and the confirmation *)

Lemma print_printed (l : line) (w : world) :
  print l w = (Ok tt, printed [l] w).
Proof. reflexivity. Qed.

Lemma printed_printed (ls1 ls2 : list line) (w : world) :
  printed ls2 (printed ls1 w) = printed (ls1 ++ ls2) w.
Proof. unfold printed; simpl. by rewrite app_assoc. Qed.

(** C7.  When a folder of the list does not exist, the loop prints the
    warning for it and goes on with the other folders, with the counters
    and the files as they were; a list of one missing folder gives back the
    counters it was given. *)
Theorem missing_folder_skipped (pil : codec) (cfg : config) (folder : string)
    (rest : list string) (acc : totals) (w : world) :
  files w !! pathlib.Path folder = None ->
  for_folders pil cfg (folder :: rest) acc w
  = for_folders pil cfg rest acc (printed [PMissingFolder folder] w)
  ∧ for_folders pil cfg [folder] acc w
    = (Ok acc, printed [PMissingFolder folder] w).
Proof.
  intros Hmissing.
  assert (Hstep : ∀ l,
    for_folders pil cfg (folder :: l) acc w
    = for_folders pil cfg l acc (printed [PMissingFolder folder] w)).
  { intros l. cbn [for_folders]. rewrite bind_unfold.
    unfold pathlib.exists_ at 1. rewrite bind_unfold.
    unfold get_files at 1. cbv beta iota. rewrite Hmissing.
    rewrite bool_decide_eq_false_2 by (by intros [? [=]]).
    unfold mret at 1, M_ret at 1. cbn [negb].
    by rewrite bind_unfold, print_printed. }
  split; [apply Hstep|]. by rewrite Hstep.
Qed.

(** No folder at all: [Finlande] is missing, [Estonie] comes next. *)
Lemma missing_folder_skipped_witness :
  for_folders sample_codec script_config ["Finlande"; "Estonie"] no_totals
    {| files := ∅; console := [] |}
  = for_folders sample_codec script_config ["Estonie"] no_totals
      (printed [PMissingFolder "Finlande"] {| files := ∅; console := [] |}).
Proof.
  apply (missing_folder_skipped sample_codec script_config "Finlande"
           ["Estonie"] no_totals {| files := ∅; console := [] |}).
  reflexivity.
Defined.

Lemma lower_token (token : string) :
  token ∈ ["o"; "oui"; "y"; "yes"] -> lower token = token.
Proof. set_unfold. intros [->|[->|[->|[->|[]]]]]; reflexivity. Qed.

Lemma affirmative_lower (response : string) :
  affirmative response ↔ lower response ∈ ["o"; "oui"; "y"; "yes"].
Proof.
  unfold affirmative, same_nocase. split.
  - intros (token & Hin & Heq). rewrite Heq. by rewrite lower_token.
  - intros Hin. exists (lower response). split; [done|].
    by rewrite (lower_token _ Hin).
Qed.

(** C8.  The script prints the prompt first, with the files as they are.
    When the answer is one of [o], [oui], [y], [yes] up to the case of its
    letters, the run is that of [main].  On every other answer the script
    prints the cancellation and ends, and the files are as they were. *)
Theorem script_confirmation (pil : codec) (cfg : config) (response : string)
    (w : world) :
  files (printed [PPrompt] w) = files w
  ∧ (affirmative response ->
     script pil cfg response w = main pil cfg (printed [PPrompt] w))
  ∧ (¬ affirmative response ->
     script pil cfg response w = (Ok tt, printed [PPrompt; PCancelled] w)
     ∧ files (printed [PPrompt; PCancelled] w) = files w).
Proof.
  split; [done|]. rewrite affirmative_lower. unfold script.
  rewrite bind_unfold, print_printed. split; intros Hresp.
  - by rewrite bool_decide_eq_true_2.
  - rewrite bool_decide_eq_false_2 by done.
    by rewrite print_printed, printed_printed.
Qed.

Example affirmative_OUI : affirmative "OUI".
Proof. exists "oui". split; [set_solver|reflexivity]. Qed.

Example not_affirmative_padded : ¬ affirmative " yes".
Proof.
  rewrite affirmative_lower. set_unfold.
  intros [H|[H|[H|[H|[]]]]]; discriminate H.
Qed.


(** ** A failure of the second encoder *)

Section WebpFailure.

Context (pil : codec) (cfg : config).

(** Lines 35-43 on a file that holds an image whose picture can be made:
    the call goes on with the picture, the line of the resize printed. *)
Lemma open_and_prepare {A} (k : Pillow.image -> M A) (p : path) (w : world)
    (wr : bool) (fmt : format) (im img : Pillow.image) (n : N) :
  files w !! p = Some (File wr (Encoded fmt im n)) ->
  picture cfg im = Ok img ->
  (img ← Image_open p;
   img ← (if bool_decide (Pillow.im_mode img ∈ [Pillow.RGBA; Pillow.P])
          then lift (Pillow.convert img Pillow.RGB)
          else mret img);
   img ← (if (Pillow.im_width img >? fst (MAX_SIZE cfg))
             || (Pillow.im_height img >? snd (MAX_SIZE cfg))
          then
            img ← lift (Pillow.thumbnail img (MAX_SIZE cfg));
            print (PResized (pathlib.name p));;
            mret img
          else mret img);
   k img) w
  = k img (printed (resized_line cfg p im) w).
Proof.
  intros Hp Hpic. rewrite bind_unfold. unfold Image_open at 1.
  rewrite bind_unfold. unfold get_files at 1. cbv beta iota. rewrite Hp.
  unfold mret at 1, M_ret at 1. rewrite bind_unfold.
  unfold picture in Hpic. unfold resized_line.
  assert (Hnorm :
    (if bool_decide (Pillow.im_mode im ∈ [Pillow.RGBA; Pillow.P])
     then lift (Pillow.convert im Pillow.RGB) else mret im) w
    = (normalize im, w)).
  { unfold normalize. by destruct (bool_decide _). }
  rewrite Hnorm. destruct (normalize im) as [img1|e]; [|done].
  rewrite bind_unfold. fold (oversize cfg img1).
  destruct (oversize cfg img1).
  - rewrite bind_unfold. unfold lift at 1. rewrite Hpic.
    by rewrite bind_unfold, print_printed.
  - injection Hpic as ->. unfold mret at 1, M_ret at 1.
    unfold printed. by rewrite app_nil_r, world_eta.
Qed.

End WebpFailure.

(** C10.  Take a file that holds an image, of a length other than zero,
    whose picture [img] can be made and whose re-encoding as JPEG succeeds,
    and let [CREATE_WEBP] be on, with a sibling path other than the path
    itself.  When the save of the WebP sibling raises, [optimize_image]
    returns [False] and the line of the error is the last one printed; the
    file at the path holds the re-encoded JPEG all the same; and the loop
    of [main] goes on with the counters as they were, so that the sizes of
    this file are in none of the totals. *)
Theorem webp_failure_after_jpeg (pil : codec) (cfg : config) (p sib : path)
    (w : world) (wr : bool) (fmt : format) (im img : Pillow.image) (n : N)
    (jpg : content) (e : exn) :
  files w !! p = Some (File wr (Encoded fmt im n)) ->
  n ≠ 0%N ->
  picture cfg im = Ok img ->
  encode pil SaveJPEG img (QUALITY_JPG cfg) = Ok jpg ->
  (Image_save pil img p SaveJPEG (QUALITY_JPG cfg)
     (printed (resized_line cfg p im) w)).1 = Ok tt ->
  CREATE_WEBP cfg = true ->
  pathlib.with_suffix p ".webp" = Ok sib ->
  sib ≠ p ->
  (Image_save pil img sib SaveWEBP (QUALITY_WEBP cfg)
     (after_jpeg cfg p w im n jpg)).1 = Raise e ->
  ∃ w',
    optimize_image pil cfg p w = (Ok false, w')
    ∧ files w' !! p = Some (File true jpg)
    ∧ last (console w') = Some (PError (pathlib.name p) e)
    ∧ ∀ rest acc,
        for_images pil cfg (p :: rest) acc w = for_images pil cfg rest acc w'.
Proof.
  intros Hp Hn Hpic Henc Hjpeg Hcfg Hsib Hne Hwebp.
  assert (Hrun : ∃ w',
    optimize_image pil cfg p w = (Ok false, w')
    ∧ files w' !! p = Some (File true jpg)
    ∧ last (console w') = Some (PError (pathlib.name p) e)).
  { unfold optimize_image, try_except.
    rewrite (open_and_prepare cfg _ p w wr fmt im img n Hp Hpic).
    set (w1 := printed (resized_line cfg p im) w) in *.
    rewrite bind_unfold.
    rewrite (getsize_file p w1 wr (Encoded fmt im n) Hp).
    cbv beta iota. change (content_size (Encoded fmt im n)) with n.
    rewrite bind_unfold.
    destruct (Image_save_cases pil img p SaveJPEG (QUALITY_JPG cfg) w1)
      as [[e1 He]|[(e1 & c & Hc & He)|(jpg' & Hjpg' & _ & He)]];
      rewrite He in Hjpeg |- *; try discriminate Hjpeg.
    assert (jpg' = jpg) as -> by congruence. clear He Hjpeg Hjpg'.
    set (w2 := {| files := <[p := File true jpg]> (files w1);
                  console := console w1 |}).
    rewrite bind_unfold.
    rewrite (getsize_file p w2 true jpg) by apply lookup_insert_eq.
    cbv beta iota. rewrite bind_unfold. unfold lift at 1, truediv at 1.
    destruct (Z.of_N n =? 0) eqn:Hz; [apply Z.eqb_eq in Hz; lia|].
    rewrite bind_unfold, print_printed. cbv beta iota.
    fold (saved_percent n (content_size jpg)).
    fold (optimized_line p n (content_size jpg)).
    assert (Hw3 : printed [optimized_line p n (content_size jpg)] w2
                  = after_jpeg cfg p w im n jpg).
    { unfold printed, after_jpeg, w2, w1, printed; simpl.
      by rewrite <- app_assoc. }
    rewrite Hw3. set (w3 := after_jpeg cfg p w im n jpg) in *.
    rewrite bind_unfold, Hcfg. rewrite bind_unfold. unfold lift at 1.
    rewrite Hsib. rewrite bind_unfold.
    destruct (Image_save_cases pil img sib SaveWEBP (QUALITY_WEBP cfg) w3)
      as [[e1 He]|[(e1 & c & Hc & He)|(webp & _ & _ & He)]];
      rewrite He in Hwebp |- *; try discriminate Hwebp;
      simpl in Hwebp; injection Hwebp as ->;
      rewrite bind_unfold, print_printed; cbv beta iota;
      (eexists; split; [reflexivity|]); simpl.
    - split; [apply lookup_insert_eq|]. by rewrite last_snoc.
    - split; [|by rewrite last_snoc].
      rewrite lookup_insert_ne by done. apply lookup_insert_eq. }
  destruct Hrun as (w' & Hrun & Hfile & Hlast).
  exists w'. repeat (split; [done|]). intros rest acc.
  destruct (for_images_cons pil cfg p rest acc w)
    as (n0 & b & w1 & n' & _ & Hrun' & _ & _ & ->); [by eexists|].
  rewrite Hrun in Hrun'. by injection Hrun' as <- <-.
Qed.

(** An installation without the WebP plugin. *)
Lemma webp_failure_after_jpeg_witness :
  let pil := {| jpeg_bytes := jpeg_bytes sample_codec;
                webp_bytes := webp_bytes sample_codec;
                webp_supported := false |} in
  let w := one_file "a.jpg"
             (Encoded JPEG (photo Pillow.RGB 4000 3000) 5000000) in
  ∃ w',
    optimize_image pil script_config ["Finlande"; "a.jpg"] w = (Ok false, w')
    ∧ files w' !! ["Finlande"; "a.jpg"]
      = Some (File true (Encoded JPEG (photo Pillow.RGB 2000 1500) 300600))
    ∧ last (console w') = Some (PError "a.jpg" (KeyError "WEBP"))
    ∧ ∀ rest acc,
        for_images pil script_config (["Finlande"; "a.jpg"] :: rest) acc w
        = for_images pil script_config rest acc w'.
Proof.
  cbv zeta.
  apply (webp_failure_after_jpeg _ script_config ["Finlande"; "a.jpg"]
           ["Finlande"; "a.webp"] _ true JPEG (photo Pillow.RGB 4000 3000)
           (photo Pillow.RGB 2000 1500) 5000000);
    [reflexivity | done | vm_compute; reflexivity | vm_compute; reflexivity
    | vm_compute; reflexivity | reflexivity | vm_compute; reflexivity | done
    | vm_compute; reflexivity].
Defined.

(** A run of [main] in which every folder is missing raises
    [ZeroDivisionError]. *)
Example main_raises_without_files :
  (main sample_codec script_config {| files := ∅; console := [] |}).1
  = Raise ZeroDivisionError.
Proof. vm_compute. reflexivity. Qed.

(** * Further properties *)

(** ** [Image.save], run forward *)

Section SaveForward.

Context (pil : codec).

Lemma Image_save_opened (im : Pillow.image) (p : path) (enc : encoder)
    (quality : Z) (w : world) :
  Pillow.load im = Ok tt ->
  enc = SaveJPEG ∨ webp_supported pil = true ->
  can_open_wb (files w) p = true ->
  Image_save pil im p enc quality w
  = try_except (save_handler pil enc im p quality)
      (λ e, (if bool_decide (files w !! p = None)
             then remove_file p else mret ());; raise e)
      {| files := <[p := File true (Garbage 0)]> (files w);
         console := console w |}.
Proof.
  intros Hload Hsup Hopen. unfold Image_save.
  rewrite bind_unfold. unfold lift at 1. rewrite Hload.
  rewrite bind_unfold.
  assert (Hlook : match enc with
                  | SaveJPEG => mret ()
                  | SaveWEBP => if webp_supported pil then mret ()
                                else raise (KeyError "WEBP")
                  end w = (Ok tt, w)).
  { destruct Hsup as [->|Hsup]; [done|]. destruct enc; [done|].
    by rewrite Hsup. }
  rewrite Hlook. clear Hlook.
  rewrite bind_unfold. unfold get_files at 1. cbv beta iota zeta.
  rewrite bind_unfold. unfold open_wb. rewrite bind_unfold.
  unfold get_files at 1. cbv beta iota. unfold can_open_wb in Hopen.
  destruct (files w !! p) as [[sz|[] c]|]; try done.
  destruct (pathlib.parent p) as [|d0 d]; [done|].
  destruct (files w !! (d0 :: d)) as [[sz|wr c]|]; done.
Qed.

(** [Image.save] writes what the encoder gives, when the picture loads,
    the encoder is there and the file can be opened. *)
Lemma Image_save_writes (im : Pillow.image) (p : path) (enc : encoder)
    (quality : Z) (w : world) (c : content) :
  Pillow.load im = Ok tt ->
  enc = SaveJPEG ∨ webp_supported pil = true ->
  can_open_wb (files w) p = true ->
  encode pil enc im quality = Ok c ->
  Image_save pil im p enc quality w
  = (Ok tt, {| files := <[p := File true c]> (files w);
               console := console w |}).
Proof.
  intros Hload Hsup Hopen Henc.
  rewrite Image_save_opened by done.
  unfold try_except, save_handler. rewrite bind_unfold. unfold lift at 1.
  rewrite Henc. unfold put_file; simpl. by rewrite insert_insert_eq.
Qed.

(** When the encoder raises on a file that was there, [Image.save] leaves
    the file cut to length zero. *)
Lemma Image_save_truncates (im : Pillow.image) (p : path) (enc : encoder)
    (quality : Z) (w : world) (c : content) (e : exn) :
  Pillow.load im = Ok tt ->
  enc = SaveJPEG ∨ webp_supported pil = true ->
  files w !! p = Some (File true c) ->
  encode pil enc im quality = Raise e ->
  Image_save pil im p enc quality w
  = (Raise e, {| files := <[p := File true (Garbage 0)]> (files w);
                 console := console w |}).
Proof.
  intros Hload Hsup Hp Henc.
  rewrite Image_save_opened; [|done|done|by unfold can_open_wb; rewrite Hp].
  unfold try_except, save_handler. rewrite bind_unfold. unfold lift at 1.
  rewrite Henc. rewrite bool_decide_eq_false_2 by (by rewrite Hp).
  reflexivity.
Qed.

End SaveForward.

(** ** [optimize_image], run forward *)

Section Forward.

Context (pil : codec) (cfg : config).

(** Lines 35-43 when the picture cannot be made: the call returns [False]
    and nothing but the line of the error is printed. *)
Lemma open_and_prepare_raises (p : path) (w : world) (wr : bool)
    (fmt : format) (im : Pillow.image) (n : N) (e : exn) :
  files w !! p = Some (File wr (Encoded fmt im n)) ->
  picture cfg im = Raise e ->
  optimize_image pil cfg p w
  = (Ok false, printed [PError (pathlib.name p) e] w).
Proof.
  intros Hp Hpic. unfold optimize_image, try_except.
  rewrite bind_unfold. unfold Image_open at 1.
  rewrite bind_unfold. unfold get_files at 1. cbv beta iota. rewrite Hp.
  unfold mret at 1, M_ret at 1. rewrite bind_unfold.
  unfold picture in Hpic.
  assert (Hnorm :
    (if bool_decide (Pillow.im_mode im ∈ [Pillow.RGBA; Pillow.P])
     then lift (Pillow.convert im Pillow.RGB) else mret im) w
    = (normalize im, w)).
  { unfold normalize. by destruct (bool_decide _). }
  rewrite Hnorm. destruct (normalize im) as [img1|e1].
  - rewrite bind_unfold. fold (oversize cfg img1).
    destruct (oversize cfg img1); [|done].
    rewrite bind_unfold. unfold lift at 1. rewrite Hpic.
    by rewrite bind_unfold, print_printed.
  - injection Hpic as ->. by rewrite bind_unfold, print_printed.
Qed.

(** The call up to line 47, on a file that holds an image whose picture
    can be made: what is left is the save and the lines after it. *)
Lemma optimize_image_at_save (p : path) (w : world) (wr : bool)
    (fmt : format) (im img : Pillow.image) (n : N) :
  files w !! p = Some (File wr (Encoded fmt im n)) ->
  picture cfg im = Ok img ->
  optimize_image pil cfg p w
  = try_except
      (Image_save pil img p SaveJPEG (QUALITY_JPG cfg);;
       new_size ← getsize p;
       ratio ← lift (truediv (Z.of_N n - Z.of_N new_size) (Z.of_N n));
       print (POptimized (pathlib.name p) (n / 1024)%N (new_size / 1024)%N
                (ratio * 100)%Q);;
       (if CREATE_WEBP cfg then
          webp_path ← lift (pathlib.with_suffix p ".webp");
          Image_save pil img webp_path SaveWEBP (QUALITY_WEBP cfg);;
          webp_size ← getsize webp_path;
          print (PWebp (webp_size / 1024)%N)
        else mret tt);;
       mret true)
      (fun e => print (PError (pathlib.name p) e);; mret false)
      (printed (resized_line cfg p im) w).
Proof.
  intros Hp Hpic. unfold optimize_image, try_except.
  rewrite (open_and_prepare cfg _ p w wr fmt im img n Hp Hpic).
  rewrite bind_unfold.
  by rewrite (getsize_file p (printed (resized_line cfg p im) w) wr
                (Encoded fmt im n) Hp).
Qed.

End Forward.

(** A call on a writable image file of a length other than zero
    succeeds when the picture can be made and loaded, the JPEG encoder
    takes it and, with [CREATE_WEBP] on, the WebP plugin is there, the
    sibling can be opened for writing and the WebP encoder takes the
    picture.  The call then returns [True]; the file holds what the JPEG
    encoder gave, the sibling what the WebP encoder gave, and the lines of
    the resize, of the sizes and of the WebP file are printed, in this
    order. *)
Lemma optimize_image_forward (pil : codec) (cfg : config) (p sib : path)
    (w : world) (fmt : format) (im img : Pillow.image) (n : N)
    (jpg webp : content) :
  files w !! p = Some (File true (Encoded fmt im n)) ->
  n ≠ 0%N ->
  picture cfg im = Ok img ->
  Pillow.load img = Ok tt ->
  encode pil SaveJPEG img (QUALITY_JPG cfg) = Ok jpg ->
  (CREATE_WEBP cfg = true ->
   pathlib.with_suffix p ".webp" = Ok sib
   ∧ webp_supported pil = true
   ∧ can_open_wb (<[p := File true jpg]> (files w)) sib = true
   ∧ encode pil SaveWEBP img (QUALITY_WEBP cfg) = Ok webp) ->
  optimize_image pil cfg p w
  = (Ok true,
     if CREATE_WEBP cfg then after_webp cfg p sib w im n jpg webp
     else after_jpeg cfg p w im n jpg).
Proof.
  intros Hp Hn Hpic Hload Hjpg Hwebp.
  rewrite (optimize_image_at_save pil cfg p w true fmt im img n Hp Hpic).
  unfold try_except. rewrite bind_unfold.
  rewrite (Image_save_writes pil img p SaveJPEG _ _ jpg); try done; cycle 1.
  { by left. }
  { unfold can_open_wb; simpl. by rewrite Hp. }
  rewrite bind_unfold.
  rewrite (getsize_file p _ true jpg) by apply lookup_insert_eq.
  cbv beta iota. rewrite bind_unfold. unfold lift at 1, truediv at 1.
  destruct (Z.of_N n =? 0) eqn:Hz; [apply Z.eqb_eq in Hz; lia|].
  rewrite bind_unfold, print_printed. cbv beta iota.
  fold (saved_percent n (content_size jpg)).
  fold (optimized_line p n (content_size jpg)).
  match goal with |- context [printed [?l] ?w0] =>
    replace (printed [l] w0) with (after_jpeg cfg p w im n jpg)
      by (unfold printed, after_jpeg; simpl; by rewrite <- app_assoc) end.
  rewrite bind_unfold. destruct (CREATE_WEBP cfg); [|done].
  destruct Hwebp as (Hsib & Hsup & Hopen & Hwebp); [done|].
  rewrite bind_unfold. unfold lift at 1. rewrite Hsib.
  rewrite bind_unfold.
  rewrite (Image_save_writes pil img sib SaveWEBP _ _ webp); try done;
    [|by right].
  rewrite bind_unfold.
  rewrite (getsize_file sib _ true webp) by apply lookup_insert_eq.
  cbv beta iota. rewrite print_printed.
  unfold printed, after_webp, after_jpeg; simpl.
  by rewrite <- !app_assoc.
Qed.

(** The photograph of 4000x3000 under the script's configuration. *)
Example optimize_image_photo_run :
  optimize_image sample_codec script_config ["Finlande"; "a.jpg"]
    (one_file "a.jpg" (Encoded JPEG (photo Pillow.RGB 4000 3000) 5000000))
  = (Ok true,
     after_webp script_config ["Finlande"; "a.jpg"] ["Finlande"; "a.webp"]
       (one_file "a.jpg" (Encoded JPEG (photo Pillow.RGB 4000 3000) 5000000))
       (photo Pillow.RGB 4000 3000) 5000000
       (Encoded JPEG (photo Pillow.RGB 2000 1500) 300600)
       (Encoded WEBP (photo Pillow.RGB 2000 1500) 200100)).
Proof.
  apply (optimize_image_forward sample_codec script_config
           ["Finlande"; "a.jpg"] ["Finlande"; "a.webp"] _ JPEG
           (photo Pillow.RGB 4000 3000) (photo Pillow.RGB 2000 1500));
    [reflexivity | done | vm_compute; reflexivity | reflexivity
    | vm_compute; reflexivity | ].
  intros _. repeat split; vm_compute; reflexivity.
Qed.

(** X2.  When the JPEG encoder raises on the picture of a writable image
    file (a mode it does not write, an empty picture, a side above 65500),
    the call returns [False] and the file is left cut to length zero: the
    photograph is lost.  Every other path is as it was. *)
Theorem optimize_image_truncates (pil : codec) (cfg : config) (p : path)
    (w : world) (fmt : format) (im img : Pillow.image) (n : N) (e : exn) :
  files w !! p = Some (File true (Encoded fmt im n)) ->
  picture cfg im = Ok img ->
  Pillow.load img = Ok tt ->
  encode pil SaveJPEG img (QUALITY_JPG cfg) = Raise e ->
  optimize_image pil cfg p w
  = (Ok false,
     {| files := <[p := File true (Garbage 0)]> (files w);
        console := console w ++ resized_line cfg p im
                   ++ [PError (pathlib.name p) e] |}).
Proof.
  intros Hp Hpic Hload Henc.
  rewrite (optimize_image_at_save pil cfg p w true fmt im img n Hp Hpic).
  unfold try_except. rewrite bind_unfold.
  rewrite (Image_save_truncates pil img p SaveJPEG _ _ (Encoded fmt im n) e);
    try done; [|by left].
  rewrite bind_unfold, print_printed.
  unfold printed; simpl. by rewrite <- app_assoc.
Qed.

(** A PNG image of 16 bits a pixel under a name in [.jpg]. *)
Lemma optimize_image_truncates_witness :
  optimize_image sample_codec script_config ["Finlande"; "scan.jpg"]
    (one_file "scan.jpg" (Encoded PNG (photo Pillow.I16 50 50) 4000))
  = (Ok false,
     {| files := <[ ["Finlande"; "scan.jpg"] := File true (Garbage 0) ]>
                   (files (one_file "scan.jpg"
                             (Encoded PNG (photo Pillow.I16 50 50) 4000)));
        console := [PError "scan.jpg"
                      (OSError "cannot write mode I;16 as JPEG")] |}).
Proof.
  apply (optimize_image_truncates sample_codec script_config
           ["Finlande"; "scan.jpg"]
           (one_file "scan.jpg" (Encoded PNG (photo Pillow.I16 50 50) 4000))
           PNG (photo Pillow.I16 50 50) (photo Pillow.I16 50 50) 4000);
    reflexivity.
Defined.

(** ** When [Image.save] and [optimize_image] succeed *)

Lemma bind_Ok {A B} (m : M A) (k : A -> M B) (w w' : world) (b : B) :
  (m ≫= k) w = (Ok b, w') ->
  ∃ a w1, m w = (Ok a, w1) ∧ k a w1 = (Ok b, w').
Proof.
  rewrite bind_unfold. destruct (m w) as [[a|e] w1]; [|done].
  intros H. by exists a, w1.
Qed.

Section SaveInversion.

Context (pil : codec).

(** [Image.save] raises and writes nothing when the picture does not load,
    when the encoder is missing, and when the file cannot be opened. *)
Lemma Image_save_refused (im : Pillow.image) (p : path) (enc : encoder)
    (quality : Z) (w : world) :
  Pillow.load im ≠ Ok tt
  ∨ (enc = SaveWEBP ∧ webp_supported pil = false)
  ∨ can_open_wb (files w) p = false ->
  ∃ e, Image_save pil im p enc quality w = (Raise e, w).
Proof.
  intros Hwhy. unfold Image_save. rewrite bind_unfold. unfold lift at 1.
  destruct (Pillow.load im) as [[]|e] eqn:Hload; [|by eexists].
  rewrite bind_unfold.
  assert (Hlook : (enc = SaveWEBP ∧ webp_supported pil = false)
                  ∨ match enc with
                    | SaveJPEG => mret ()
                    | SaveWEBP => if webp_supported pil then mret ()
                                  else raise (KeyError "WEBP")
                    end w = (Ok tt, w)).
  { destruct enc; [by right|]. destruct (webp_supported pil); [by right|].
    by left. }
  destruct Hlook as [[-> Hsup]|Hlook].
  { rewrite Hsup. by eexists. }
  rewrite Hlook.
  destruct Hwhy as [?|[[-> Hsup]|Hopen]]; [done| |].
  { rewrite Hsup in Hlook. discriminate Hlook. }
  clear Hlook.
  rewrite bind_unfold. unfold get_files at 1. cbv beta iota zeta.
  rewrite bind_unfold. unfold open_wb. rewrite bind_unfold.
  unfold get_files at 1. cbv beta iota. unfold can_open_wb in Hopen.
  destruct (files w !! p) as [[sz|[] c]|]; try done; try by eexists.
  destruct (pathlib.parent p) as [|d0 d]; [done|].
  destruct (files w !! (d0 :: d)) as [[sz|wr c]|]; try done; by eexists.
Qed.

(** What a save that succeeded shows. *)
Lemma Image_save_Ok_inv (im : Pillow.image) (p : path) (enc : encoder)
    (quality : Z) (w w' : world) :
  Image_save pil im p enc quality w = (Ok tt, w') ->
  Pillow.load im = Ok tt
  ∧ (enc = SaveJPEG ∨ webp_supported pil = true)
  ∧ can_open_wb (files w) p = true
  ∧ ∃ c, encode pil enc im quality = Ok c
         ∧ w' = {| files := <[p := File true c]> (files w);
                   console := console w |}.
Proof.
  intros Hrun.
  assert (Hload : Pillow.load im = Ok tt).
  { destruct (Pillow.load im) as [[]|e] eqn:Hload; [done|].
    destruct (Image_save_refused im p enc quality w) as [e' He'];
      [left; congruence|congruence]. }
  assert (Hsup : enc = SaveJPEG ∨ webp_supported pil = true).
  { destruct enc; [by left|]. destruct (webp_supported pil) eqn:Hsup;
      [by right|].
    destruct (Image_save_refused im p SaveWEBP quality w) as [e' He'];
      [right; left; done|congruence]. }
  assert (Hopen : can_open_wb (files w) p = true).
  { destruct (can_open_wb (files w) p) eqn:Hopen; [done|].
    destruct (Image_save_refused im p enc quality w) as [e' He'];
      [right; right; done|congruence]. }
  repeat (split; [done|]).
  rewrite Image_save_opened in Hrun by done.
  unfold try_except, save_handler in Hrun. rewrite bind_unfold in Hrun.
  unfold lift at 1 in Hrun.
  destruct (encode pil enc im quality) as [c|e].
  - exists c. split; [done|]. unfold put_file in Hrun; simpl in Hrun.
    rewrite insert_insert_eq in Hrun. congruence.
  - rewrite bind_unfold in Hrun. by destruct (bool_decide _).
Qed.

End SaveInversion.

(** These conditions are the only way to succeed: a call that returned
    [True] was made on a writable image file of a length other than zero
    whose picture was made, loaded and taken by the JPEG encoder and, with
    [CREATE_WEBP] on, with the WebP plugin there, the sibling open for
    writing and the picture taken by the WebP encoder. *)
Lemma optimize_image_backward (pil : codec) (cfg : config) (p : path)
    (w w' : world) :
  optimize_image pil cfg p w = (Ok true, w') ->
  ∃ fmt im n img jpg,
    files w !! p = Some (File true (Encoded fmt im n))
    ∧ n ≠ 0%N
    ∧ picture cfg im = Ok img
    ∧ Pillow.load img = Ok tt
    ∧ encode pil SaveJPEG img (QUALITY_JPG cfg) = Ok jpg
    ∧ if CREATE_WEBP cfg then
        ∃ sib webp,
          pathlib.with_suffix p ".webp" = Ok sib
          ∧ webp_supported pil = true
          ∧ can_open_wb (<[p := File true jpg]> (files w)) sib = true
          ∧ encode pil SaveWEBP img (QUALITY_WEBP cfg) = Ok webp
          ∧ w' = after_webp cfg p sib w im n jpg webp
      else w' = after_jpeg cfg p w im n jpg.
Proof.
  intros Hrun.
  destruct (optimize_image_outcome pil cfg p w) as (b & w0 & Heq & Hout).
  rewrite Heq in Hrun. injection Hrun as -> ->.
  assert (Hfacts : ∃ fmt im n img,
            files w !! p = Some (File true (Encoded fmt im n))
            ∧ n ≠ 0%N ∧ picture cfg im = Ok img).
  { inversion Hout; subst; by eexists _, _, _, _. }
  destruct Hfacts as (fmt & im & n & img & Hp & Hn & Hpic).
  exists fmt, im, n, img. clear Hout.
  rewrite (optimize_image_at_save pil cfg p w true fmt im img n Hp Hpic)
    in Heq.
  unfold try_except in Heq.
  match type of Heq with context [match ?body ?w1 with _ => _ end] =>
    destruct (body w1) as [[b|e] w2] eqn:Hbody end; [|done].
  injection Heq as -> ->.
  apply bind_Ok in Hbody as ([] & wa & Hsave & Hbody).
  apply Image_save_Ok_inv in Hsave as (Hload & _ & _ & jpg & Hjpg & ->).
  exists jpg. repeat (split; [done|]).
  rewrite bind_unfold in Hbody.
  rewrite (getsize_file p _ true jpg) in Hbody by apply lookup_insert_eq.
  cbv beta iota in Hbody. rewrite bind_unfold in Hbody.
  unfold lift at 1, truediv at 1 in Hbody.
  destruct (Z.of_N n =? 0) eqn:Hz; [apply Z.eqb_eq in Hz; lia|].
  rewrite bind_unfold, print_printed in Hbody. cbv beta iota in Hbody.
  fold (saved_percent n (content_size jpg)) in Hbody.
  fold (optimized_line p n (content_size jpg)) in Hbody.
  match type of Hbody with context [printed [?l] ?w0] =>
    replace (printed [l] w0) with (after_jpeg cfg p w im n jpg) in Hbody
      by (unfold printed, after_jpeg; simpl; by rewrite <- app_assoc) end.
  rewrite bind_unfold in Hbody.
  destruct (CREATE_WEBP cfg); [|by injection Hbody as <-].
  rewrite bind_unfold in Hbody. unfold lift at 1 in Hbody.
  destruct (pathlib.with_suffix p ".webp") as [sib|e] eqn:Hsib; [|done].
  rewrite bind_unfold in Hbody.
  destruct (Image_save pil img sib SaveWEBP (QUALITY_WEBP cfg)
              (after_jpeg cfg p w im n jpg)) as [[[]|e] wb] eqn:Hsave;
    [|done].
  apply Image_save_Ok_inv in Hsave
    as (_ & [?|Hsup] & Hopen & webp & Hwebp & ->); [done|].
  exists sib, webp. repeat (split; [done|]).
  rewrite bind_unfold in Hbody.
  rewrite (getsize_file sib _ true webp) in Hbody by apply lookup_insert_eq.
  cbv beta iota in Hbody. rewrite print_printed in Hbody.
  injection Hbody as <-.
  unfold printed, after_webp, after_jpeg; simpl. by rewrite <- !app_assoc.
Qed.

(** ** Calls that leave the files as they were *)

(** X3.  On a path that holds no writable image file (nothing, a
    directory, bytes that are no image, an image file that cannot be
    written), [optimize_image] returns [False] and leaves every file as it
    was. *)
Theorem optimize_image_untouched (pil : codec) (cfg : config) (p : path)
    (w : world) :
  (∀ fmt im n, files w !! p ≠ Some (File true (Encoded fmt im n))) ->
  ∃ w', optimize_image pil cfg p w = (Ok false, w') ∧ files w' = files w.
Proof.
  intros Hp.
  assert (Hopen : ∀ e, Image_open p w = (Raise e, w) ->
            ∃ w', optimize_image pil cfg p w = (Ok false, w')
                  ∧ files w' = files w).
  { intros e He. unfold optimize_image, try_except.
    rewrite bind_unfold, He. by eexists. }
  destruct (files w !! p) as [[sz|[] [fmt im n|n]]|] eqn:Hlook.
  - apply (Hopen IsADirectoryError). unfold Image_open.
    rewrite bind_unfold. unfold get_files at 1. cbv beta iota.
    by rewrite Hlook.
  - by destruct (Hp fmt im n).
  - apply (Hopen UnidentifiedImageError). unfold Image_open.
    rewrite bind_unfold. unfold get_files at 1. cbv beta iota.
    by rewrite Hlook.
  - destruct (optimize_image_outcome pil cfg p w) as (b & w' & Hrun & Hout).
    inversion Hout; subst; try congruence. by eexists.
  - apply (Hopen UnidentifiedImageError). unfold Image_open.
    rewrite bind_unfold. unfold get_files at 1. cbv beta iota.
    by rewrite Hlook.
  - apply (Hopen FileNotFoundError). unfold Image_open.
    rewrite bind_unfold. unfold get_files at 1. cbv beta iota.
    by rewrite Hlook.
Qed.

(** A photograph that cannot be written. *)
Lemma optimize_image_untouched_witness :
  let w := {| files := {[ ["a.jpg"] :=
                File false (Encoded JPEG (photo Pillow.RGB 4000 3000) 5000000) ]};
              console := [] |} in
  ∃ w', optimize_image sample_codec script_config ["a.jpg"] w = (Ok false, w')
        ∧ files w' = files w.
Proof.
  cbv zeta. apply optimize_image_untouched.
  intros fmt im n. vm_compute. discriminate.
Defined.

Section Unloadable.

Context (cfg : config).

(** The picture of an image whose data does not load is the image
    itself: every step that would change it loads it first, and raises. *)
Lemma picture_unloadable (im img : Pillow.image) :
  Pillow.im_loadable im = false -> picture cfg im = Ok img -> img = im.
Proof.
  intros Hload. unfold picture, normalize, Pillow.convert, Pillow.load.
  rewrite Hload. destruct (bool_decide _); [done|].
  destruct (oversize cfg im); [|by intros [= <-]].
  unfold Pillow.thumbnail, Pillow.resize, Pillow.load. rewrite Hload.
  destruct (Pillow.preserve_aspect_ratio _ _) as [[size'|]|e]; [| |done].
  - case_decide; [by intros [= <-]|done].
  - by intros [= <-].
Qed.

End Unloadable.

(** X4.  On an image file whose pixel data does not load (the header
    parses, the data is cut short), [optimize_image] returns [False] and
    leaves every file as it was: the file is not opened for writing. *)
Theorem optimize_image_unloadable (pil : codec) (cfg : config) (p : path)
    (w : world) (wr : bool) (fmt : format) (im : Pillow.image) (n : N) :
  files w !! p = Some (File wr (Encoded fmt im n)) ->
  Pillow.im_loadable im = false ->
  ∃ w', optimize_image pil cfg p w = (Ok false, w') ∧ files w' = files w.
Proof.
  intros Hp Hload. destruct (picture cfg im) as [img|e] eqn:Hpic.
  - pose proof (picture_unloadable cfg im img Hload Hpic) as ->.
    rewrite (optimize_image_at_save pil cfg p w wr fmt im im n Hp Hpic).
    unfold try_except. rewrite bind_unfold.
    destruct (Image_save_refused pil im p SaveJPEG (QUALITY_JPG cfg)
                (printed (resized_line cfg p im) w)) as [e ->].
    { left. unfold Pillow.load. by rewrite Hload. }
    rewrite bind_unfold, print_printed. by eexists.
  - rewrite (open_and_prepare_raises pil cfg p w wr fmt im n e Hp Hpic).
    by eexists.
Qed.

(** A photograph of 4000x3000 whose data is cut short. *)
Lemma optimize_image_unloadable_witness :
  let im := {| Pillow.im_mode := Pillow.RGB; Pillow.im_width := 4000;
               Pillow.im_height := 3000; Pillow.im_loadable := false |} in
  let w := one_file "a.jpg" (Encoded JPEG im 123456) in
  ∃ w', optimize_image sample_codec script_config ["Finlande"; "a.jpg"] w
        = (Ok false, w')
        ∧ files w' = files w.
Proof.
  cbv zeta.
  apply (optimize_image_unloadable sample_codec script_config
           ["Finlande"; "a.jpg"] _ true JPEG
           {| Pillow.im_mode := Pillow.RGB; Pillow.im_width := 4000;
              Pillow.im_height := 3000; Pillow.im_loadable := false |}
           123456); reflexivity.
Defined.

(** ** The size and the mode of what is written *)

Section ShrinkFacts.

Import Pillow.

(** [Image.thumbnail] never enlarges: an image that exceeds the box comes
    out no wider and no higher than it was. *)
Lemma thumbnail_shrinks (im im' : image) (x y : Z) :
  0 < im_width im -> 0 < im_height im -> 0 < x -> 0 < y ->
  im_width im > x ∨ im_height im > y ->
  thumbnail im (x, y) = Ok im' ->
  im_width im' <= im_width im ∧ im_height im' <= im_height im.
Proof.
  intros Hw Hh Hx Hy Hbig. unfold thumbnail, preserve_aspect_ratio.
  set (w := im_width im) in *. set (h := im_height im) in *.
  replace ((x >=? w) && (y >=? h)) with false
    by (symmetry; apply andb_false_iff; lia).
  replace ((h =? 0) || (y =? 0)) with false
    by (symmetry; apply orb_false_iff; lia).
  assert (Hres : ∀ i r s, r <= w -> s <= h ->
    (if decide (im_size im = (r, s)) then Ok im else resize im (r, s)) = Ok i ->
    im_width i <= w ∧ im_height i <= h).
  { intros i r s Hr Hs. unfold resize, load, im_size. fold w h.
    case_decide as Hsz.
    - intros [= <-]. fold w h. lia.
    - destruct (im_loadable im); [|done]. by intros [= <-]. }
  destruct (Qle_bool _ _) eqn:Hle.
  - apply Qle_bool_iff in Hle.
    apply (proj1 (Qle_quotients _ _ _ _ Hh Hy)) in Hle.
    rewrite (round_aspect_comp _ (inject_Z (y * w) / inject_Z h)); cycle 1.
    { rewrite inject_Z_mult. unfold Qdiv. ring. }
    match goal with |- context [round_aspect _ ?k] =>
      destruct (round_aspect_quotient (y * w) h x k) as [Hr1 Hr2];
        [nia|lia|lia|nia|]; set (r := round_aspect _ k) in * end.
    assert (y <= h) by nia.
    intros Hi. eapply Hres; [| |exact Hi]; [nia|lia].
  - assert (Hlt : x * h < w * y).
    { destruct (Z_lt_le_dec (x * h) (w * y)) as [|Hge]; [done|].
      assert (Qle_bool (inject_Z w / inject_Z h) (inject_Z x / inject_Z y)
              = true) as Hc by (apply Qle_bool_iff, Qle_quotients; lia).
      congruence. }
    replace (Qeq_bool (inject_Z w / inject_Z h) 0) with false; cycle 1.
    { symmetry. apply not_true_iff_false. intros Hq%Qeq_bool_iff.
      unfold Qeq, Qdiv, Qinv, Qmult, inject_Z in Hq.
      destruct h; simpl in Hq; lia. }
    rewrite (round_aspect_comp _ (inject_Z (x * h) / inject_Z w)); cycle 1.
    { rewrite inject_Z_mult. field.
      split; intros Hq; unfold Qeq, inject_Z in Hq; simpl in Hq; lia. }
    match goal with |- context [round_aspect _ ?k] =>
      destruct (round_aspect_quotient (x * h) w y k) as [Hr1 Hr2];
        [nia|lia|lia|nia|]; set (r := round_aspect _ k) in * end.
    assert (x <= w) by nia.
    intros Hi. eapply Hres; [| |exact Hi]; [lia|nia].
Qed.

End ShrinkFacts.

Section PictureShrinks.

Context (cfg : config).

Lemma picture_shrinks (im img : Pillow.image) :
  0 < Pillow.im_width im -> 0 < Pillow.im_height im ->
  0 < fst (MAX_SIZE cfg) -> 0 < snd (MAX_SIZE cfg) ->
  picture cfg im = Ok img ->
  Pillow.im_width img <= Pillow.im_width im
  ∧ Pillow.im_height img <= Pillow.im_height im.
Proof.
  intros Hw Hh Hx Hy. unfold picture.
  destruct (normalize im) as [img1|e] eqn:Hnorm; [|done].
  apply normalize_Ok in Hnorm as (Hw1 & Hh1 & _).
  unfold oversize. destruct (MAX_SIZE cfg) as [x y]; simpl in *.
  destruct (_ || _) eqn:Hbig.
  - intros Hth. apply thumbnail_shrinks in Hth; [lia|lia..|].
    apply orb_true_iff in Hbig. lia.
  - intros [= <-]. lia.
Qed.

End PictureShrinks.

(** X5.  [optimize_image] never enlarges a photograph: after a call that
    returned [True] on an image of positive width and height, under a
    positive maximum size, the image in the file is no wider and no higher
    than the original. *)
Theorem optimize_image_never_enlarges (pil : codec) (cfg : config) (p : path)
    (w w' : world) (wr : bool) (fmt : format) (im : Pillow.image) (n : N) :
  files w !! p = Some (File wr (Encoded fmt im n)) ->
  0 < Pillow.im_width im -> 0 < Pillow.im_height im ->
  0 < fst (MAX_SIZE cfg) -> 0 < snd (MAX_SIZE cfg) ->
  optimize_image pil cfg p w = (Ok true, w') ->
  ∃ fmt' im' n',
    files w' !! p = Some (File true (Encoded fmt' im' n'))
    ∧ Pillow.im_width im' <= Pillow.im_width im
    ∧ Pillow.im_height im' <= Pillow.im_height im.
Proof.
  intros Hp Hw Hh Hx Hy Hrun.
  apply optimize_image_true_file in Hrun
    as (fmt0 & im0 & n0 & img & fmt' & im' & n' & Hp0 & Hpic & _ & Hp'
        & Hw' & Hh' & _).
  rewrite Hp in Hp0. injection Hp0 as -> -> -> ->.
  exists fmt', im', n'. split; [done|].
  apply picture_shrinks in Hpic; [|done..]. lia.
Qed.

(** A photograph of 3000x4001 comes out as 1500x2000. *)
Lemma optimize_image_never_enlarges_witness :
  ∃ fmt' im' n',
    files (optimize_image sample_codec script_config ["Finlande"; "a.jpg"]
             (one_file "a.jpg"
                (Encoded JPEG (photo Pillow.RGB 3000 4001) 5000000))).2
      !! ["Finlande"; "a.jpg"]
    = Some (File true (Encoded fmt' im' n'))
    ∧ Pillow.im_width im' <= 3000
    ∧ Pillow.im_height im' <= 4001.
Proof.
  apply (optimize_image_never_enlarges sample_codec script_config
           ["Finlande"; "a.jpg"]
           (one_file "a.jpg"
              (Encoded JPEG (photo Pillow.RGB 3000 4001) 5000000))
           _ true JPEG (photo Pillow.RGB 3000 4001) 5000000);
    [reflexivity | simpl; lia | simpl; lia | simpl; lia | simpl; lia
    | vm_compute; reflexivity].
Defined.

(** ** A second call on the same file *)

Section Again.

Context (pil : codec) (cfg : config).

Lemma encode_jpeg_inv (img : Pillow.image) (q : Z) (jpg : content) :
  encode pil SaveJPEG img q = Ok jpg ->
  ∃ m,
    Pillow.jpeg_rawmode (Pillow.im_mode img) = Some m
    ∧ (Pillow.im_width img =? 0) || (Pillow.im_height img =? 0) = false
    ∧ (65500 <? Pillow.im_width img) || (65500 <? Pillow.im_height img)
      = false
    ∧ jpg = Encoded JPEG
              {| Pillow.im_mode := m; Pillow.im_width := Pillow.im_width img;
                 Pillow.im_height := Pillow.im_height img;
                 Pillow.im_loadable := true |}
              (jpeg_bytes pil img q).
Proof.
  intros H. unfold encode in H.
  destruct ((Pillow.im_width img =? 0) || (Pillow.im_height img =? 0));
    [done|].
  destruct (Pillow.jpeg_rawmode _) as [m|]; [|done].
  destruct ((65500 <? Pillow.im_width img) || (65500 <? Pillow.im_height img));
    [done|].
  injection H as <-. by exists m.
Qed.

Lemma encode_webp_inv (img : Pillow.image) (q : Z) (webp : content) :
  encode pil SaveWEBP img q = Ok webp ->
  (Pillow.im_width img <=? 0) || (Pillow.im_height img <=? 0)
  || (16383 <? Pillow.im_width img) || (16383 <? Pillow.im_height img)
  = false
  ∧ webp = Encoded WEBP
             {| Pillow.im_mode := Pillow.webp_rawmode (Pillow.im_mode img);
                Pillow.im_width := Pillow.im_width img;
                Pillow.im_height := Pillow.im_height img;
                Pillow.im_loadable := true |}
             (webp_bytes pil img q).
Proof.
  intros H. unfold encode in H.
  destruct ((Pillow.im_width img <=? 0) || (Pillow.im_height img <=? 0)
            || (16383 <? Pillow.im_width img)
            || (16383 <? Pillow.im_height img)); [done|].
  by injection H as <-.
Qed.

(** The modes a JPEG file is read back in are written as they are, and
    need no conversion. *)
Lemma jpeg_rawmode_settled (m0 m : Pillow.mode) :
  Pillow.jpeg_rawmode m0 = Some m ->
  Pillow.jpeg_rawmode m = Some m
  ∧ bool_decide (m ∈ [Pillow.RGBA; Pillow.P]) = false
  ∧ Pillow.webp_rawmode m0 = Pillow.RGB
  ∧ Pillow.webp_rawmode m = Pillow.RGB.
Proof. destruct m0; simpl; intros [= <-]; done. Qed.

(** The picture is never oversize. *)
Lemma picture_not_oversize (im img : Pillow.image) :
  0 < Pillow.im_width im -> 0 < Pillow.im_height im ->
  0 < fst (MAX_SIZE cfg) -> 0 < snd (MAX_SIZE cfg) ->
  picture cfg im = Ok img ->
  oversize cfg img = false.
Proof.
  intros Hw Hh Hx Hy Hpic. pose proof (picture_size cfg im img Hw Hh Hx Hy Hpic)
    as Hsize.
  unfold oversize in *. destruct (MAX_SIZE cfg) as [x y]; simpl in *.
  destruct (_ || _) eqn:Hbig in Hsize.
  - unfold fits_box in Hsize. apply orb_false_iff. lia.
  - unfold Pillow.im_size in Hsize. injection Hsize as -> ->. done.
Qed.

(** An image in a mode other than [RGBA] and [P] that is not oversize is
    its own picture, and no resize is printed for it. *)
Lemma picture_settled (p : path) (im : Pillow.image) :
  bool_decide (Pillow.im_mode im ∈ [Pillow.RGBA; Pillow.P]) = false ->
  oversize cfg im = false ->
  picture cfg im = Ok im ∧ resized_line cfg p im = [].
Proof.
  intros Hm Hbig. unfold picture, resized_line, normalize.
  by rewrite Hm, Hbig.
Qed.

End Again.

(** X6.  A second call succeeds and changes nothing in the picture: when a
    call on an image of positive width and height returned [True], under a
    positive maximum size and encoders that never write an empty file, a
    call on the same path in the world it left returns [True] again, prints
    no resize, and leaves in the file an image of the same mode and the
    same size as the first call left. *)
Theorem optimize_image_again (pil : codec) (cfg : config) (p : path)
    (w w' : world) (wr : bool) (fmt : format) (im : Pillow.image) (n : N) :
  writes_bytes pil ->
  files w !! p = Some (File wr (Encoded fmt im n)) ->
  0 < Pillow.im_width im -> 0 < Pillow.im_height im ->
  0 < fst (MAX_SIZE cfg) -> 0 < snd (MAX_SIZE cfg) ->
  optimize_image pil cfg p w = (Ok true, w') ->
  ∃ w'' im1,
    image_at w' p = Some im1
    ∧ optimize_image pil cfg p w' = (Ok true, w'')
    ∧ image_at w'' p = Some im1
    ∧ resized_line cfg p im1 = [].
Proof.
  intros Hbytes Hp Hw Hh Hx Hy Hrun.
  apply optimize_image_backward in Hrun
    as (fmt0 & im0 & n0 & img & jpg & Hp0 & Hn & Hpic & Hload & Hjpg & Hrest).
  rewrite Hp in Hp0. injection Hp0 as -> -> -> ->.
  pose proof (picture_not_oversize cfg im0 img Hw Hh Hx Hy Hpic) as Hbig.
  apply encode_jpeg_inv in Hjpg as (m & Hm & Hz & H65 & ->).
  destruct (jpeg_rawmode_settled _ _ Hm) as (Hmm & Hconv & Hwm0 & Hwm).
  set (im1 := {| Pillow.im_mode := m; Pillow.im_width := Pillow.im_width img;
                 Pillow.im_height := Pillow.im_height img;
                 Pillow.im_loadable := true |}) in *.
  set (rgb := {| Pillow.im_mode := Pillow.RGB;
                 Pillow.im_width := Pillow.im_width img;
                 Pillow.im_height := Pillow.im_height img;
                 Pillow.im_loadable := true |}).
  (* the image a call leaves is its own picture, and is encoded again *)
  assert (Hstep : ∀ i, Pillow.im_width i = Pillow.im_width img ->
            Pillow.im_height i = Pillow.im_height img ->
            Pillow.im_loadable i = true ->
            Pillow.jpeg_rawmode (Pillow.im_mode i) = Some (Pillow.im_mode i) ->
            bool_decide (Pillow.im_mode i ∈ [Pillow.RGBA; Pillow.P]) = false ->
            (picture cfg i = Ok i ∧ resized_line cfg p i = [])
            ∧ Pillow.load i = Ok tt
            ∧ encode pil SaveJPEG i (QUALITY_JPG cfg)
              = Ok (Encoded JPEG i (jpeg_bytes pil i (QUALITY_JPG cfg)))).
  { intros i Hiw Hih Hil Him Hic. split; [|split].
    - apply picture_settled; [done|]. unfold oversize in *.
      by rewrite Hiw, Hih.
    - unfold Pillow.load. by rewrite Hil.
    - unfold encode. rewrite Hiw, Hih, Hz, Him, H65.
      destruct i; simpl in *. by subst. }
  destruct (CREATE_WEBP cfg) eqn:Hcfg.
  - destruct Hrest as (sib & webp & Hsib & Hsup & Hopen & Hwebp & ->).
    apply encode_webp_inv in Hwebp as (Hzw & ->). rewrite Hwm0.
    fold rgb.
    assert (Hwebp2 : ∀ i, Pillow.im_width i = Pillow.im_width img ->
              Pillow.im_height i = Pillow.im_height img ->
              Pillow.webp_rawmode (Pillow.im_mode i) = Pillow.RGB ->
              encode pil SaveWEBP i (QUALITY_WEBP cfg)
              = Ok (Encoded WEBP rgb (webp_bytes pil i (QUALITY_WEBP cfg)))).
    { intros i Hiw Hih Him. unfold encode. by rewrite Hiw, Hih, Hzw, Him. }
    destruct (decide (sib = p)) as [->|Hne].
    + (* the sibling is the path itself: the file holds the WebP image *)
      destruct (Hstep rgb) as ((Hpic1 & Hrl) & Hload1 & Hjpg1); try done.
      eexists _, rgb.
      split; [unfold image_at, after_webp; simpl;
              by rewrite lookup_insert_eq|].
      split; [eapply (optimize_image_forward pil cfg p p _ _ rgb rgb)|].
      * unfold after_webp; simpl. by rewrite lookup_insert_eq.
      * apply Hbytes.
      * done.
      * done.
      * exact Hjpg1.
      * intros _. split; [done|]. split; [done|]. split.
        -- unfold can_open_wb. by rewrite lookup_insert_eq.
        -- by apply Hwebp2.
      * rewrite Hcfg. split; [|done].
        unfold image_at, after_webp; simpl. by rewrite lookup_insert_eq.
    + destruct (Hstep im1) as ((Hpic1 & Hrl) & Hload1 & Hjpg1); try done.
      eexists _, im1.
      split; [unfold image_at, after_webp; simpl;
              by rewrite lookup_insert_ne, lookup_insert_eq|].
      split; [eapply (optimize_image_forward pil cfg p sib _ _ im1 im1)|].
      * unfold after_webp; simpl.
        by rewrite lookup_insert_ne, lookup_insert_eq.
      * apply Hbytes.
      * done.
      * done.
      * exact Hjpg1.
      * intros _. split; [done|]. split; [done|]. split.
        -- unfold can_open_wb, after_webp; simpl.
           by rewrite lookup_insert_ne, lookup_insert_eq.
        -- by apply Hwebp2.
      * rewrite Hcfg. split; [|done].
        unfold image_at, after_webp; simpl.
        by rewrite lookup_insert_ne, lookup_insert_eq.
  - subst w'. destruct (Hstep im1) as ((Hpic1 & Hrl) & Hload1 & Hjpg1);
      try done.
    eexists _, im1.
    split; [unfold image_at, after_jpeg; simpl; by rewrite lookup_insert_eq|].
    split; [eapply (optimize_image_forward pil cfg p p _ _ im1 im1 _ _
                      (Garbage 0))|].
    + unfold after_jpeg; simpl. by rewrite lookup_insert_eq.
    + apply Hbytes.
    + done.
    + done.
    + exact Hjpg1.
    + congruence.
    + rewrite Hcfg. split; [|done].
      unfold image_at, after_jpeg; simpl. by rewrite lookup_insert_eq.
Qed.

(** The photograph of 4000x3000, optimized twice. *)
Lemma optimize_image_again_witness :
  ∃ w'' im1,
    image_at
      (optimize_image header_codec script_config ["Finlande"; "a.jpg"]
         (one_file "a.jpg"
            (Encoded JPEG (photo Pillow.RGB 4000 3000) 5000000))).2
      ["Finlande"; "a.jpg"] = Some im1
    ∧ optimize_image header_codec script_config ["Finlande"; "a.jpg"]
        (optimize_image header_codec script_config ["Finlande"; "a.jpg"]
           (one_file "a.jpg"
              (Encoded JPEG (photo Pillow.RGB 4000 3000) 5000000))).2
      = (Ok true, w'')
    ∧ image_at w'' ["Finlande"; "a.jpg"] = Some im1
    ∧ resized_line script_config ["Finlande"; "a.jpg"] im1 = [].
Proof.
  apply (optimize_image_again header_codec script_config
           ["Finlande"; "a.jpg"]
           (one_file "a.jpg"
              (Encoded JPEG (photo Pillow.RGB 4000 3000) 5000000))
           _ true JPEG (photo Pillow.RGB 4000 3000) 5000000);
    [intros im q; simpl; lia | reflexivity | simpl; lia | simpl; lia
    | simpl; lia | simpl; lia | vm_compute; reflexivity].
Defined.

(** ** What a call prints *)

(** X7.  Every call of [optimize_image] prints at least one line after
    those that were there, and the last line it prints is the line of an
    error exactly when it returns [False]. *)
Theorem optimize_image_reports_failure (pil : codec) (cfg : config) (p : path)
    (w : world) :
  ∃ b w' tr l,
    optimize_image pil cfg p w = (Ok b, w')
    ∧ console w' = console w ++ tr ++ [l]
    ∧ (b = false ↔ ∃ e, l = PError (pathlib.name p) e).
Proof.
  destruct (optimize_image_outcome pil cfg p w) as (b & w' & Hrun & Hout).
  exists b, w'.
  inversion Hout as [tr e|c tr e Hc|fmt0 im0 n0 img jpg tr e Hp0 Hpic Hjpg
                     |fmt0 im0 n0 img jpg sib c tr e Hp0 Hpic Hjpg Hcfg Hsib Hc
                     |fmt0 im0 n0 img jpg Hp0 Hpic Hjpg Hn Hcfg
                     |fmt0 im0 n0 img jpg sib webp Hp0 Hpic Hjpg Hn Hcfg Hsib];
    subst; simpl.
  1-4: exists tr, (PError (pathlib.name p) e);
       split; [done|]; split; [done|]; split; [by eexists|done].
  - exists (resized_line cfg p im0), (optimized_line p n0 (content_size jpg)).
    split; [done|]. split; [done|]. split; [done|]. by intros [e [=]].
  - exists (resized_line cfg p im0 ++ [optimized_line p n0 (content_size jpg)]),
           (PWebp (content_size webp / 1024)%N).
    split; [done|]. split; [by rewrite <- !app_assoc|].
    split; [done|]. by intros [e [=]].
Qed.

(** ** Names, extensions and siblings *)

Section NameFacts.

Lemma length_append (s t : string) :
  String.length (s +:+ t) = (String.length s + String.length t)%nat.
Proof.
  induction s as [|c s IH]; [done|]. rewrite append_cons. simpl. by rewrite IH.
Qed.

Lemma append_assoc (s t u : string) : (s +:+ t) +:+ u = s +:+ (t +:+ u).
Proof.
  induction s as [|c s IH]; [done|]. by rewrite !append_cons, IH.
Qed.

(** Two names that end in runs of the same length end in the same run. *)
Lemma append_inj_r (s1 s2 t1 t2 : string) :
  String.length t1 = String.length t2 ->
  s1 +:+ t1 = s2 +:+ t2 -> t1 = t2.
Proof.
  intros Hlen. revert s2. induction s1 as [|c s1 IH]; intros s2 Heq.
  - destruct s2 as [|d s2]; [done|]. exfalso.
    apply (f_equal String.length) in Heq.
    rewrite append_nil_l, append_cons in Heq. simpl in Heq.
    rewrite length_append in Heq. lia.
  - destruct s2 as [|d s2].
    + exfalso. apply (f_equal String.length) in Heq.
      rewrite append_nil_l, append_cons in Heq. simpl in Heq.
      rewrite length_append in Heq. lia.
    + rewrite !append_cons in Heq. injection Heq as _ Heq. by eapply IH.
Qed.

Lemma substring_app_l (s t : string) :
  String.substring 0 (String.length s) (s +:+ t) = s.
Proof.
  induction s as [|c s IH]; [by destruct t|].
  rewrite append_cons. simpl. by rewrite IH.
Qed.

Lemma substring_app_r (s t : string) :
  String.substring (String.length s) (String.length t) (s +:+ t) = t.
Proof.
  induction s as [|c s IH].
  - rewrite append_nil_l. apply substring_all.
  - rewrite append_cons. simpl. apply IH.
Qed.

Lemma rfind_no_dot (e : string) :
  no_dot e = true -> pathlib.rfind "." e = None.
Proof.
  induction e as [|c e IH]; [done|]. simpl.
  intros [Hc He]%andb_true_iff. rewrite (IH He).
  apply negb_true_iff in Hc. by rewrite Hc.
Qed.

(** The last dot of a name that ends in an extension is the dot of the
    extension. *)
Lemma rfind_extension (stem e : string) :
  no_dot e = true ->
  pathlib.rfind "." (stem +:+ String "." e) = Some (String.length stem).
Proof.
  intros He. induction stem as [|c stem IH].
  - rewrite append_nil_l. simpl. by rewrite (rfind_no_dot e He).
  - rewrite append_cons. simpl. by rewrite IH.
Qed.

Lemma suffix_extension (stem ext : string) :
  stem ≠ EmptyString -> is_extension ext ->
  pathlib.suffix (stem +:+ ext) = ext.
Proof.
  intros Hstem (e & -> & He & Hdot). unfold pathlib.suffix.
  rewrite (rfind_extension stem e Hdot).
  assert (0 < String.length stem)%nat by (destruct stem; [done|simpl; lia]).
  assert (0 < String.length e)%nat by (destruct e; [done|simpl; lia]).
  rewrite length_append. simpl String.length.
  replace ((0 <? String.length stem)%nat) with true
    by (symmetry; apply Nat.ltb_lt; lia).
  replace ((String.length stem <? String.length stem + S (String.length e) - 1)%nat)
    with true by (symmetry; apply Nat.ltb_lt; lia).
  simpl andb.
  replace (String.length stem + S (String.length e) - String.length stem)%nat
    with (String.length (String "." e)) by (simpl; lia).
  apply substring_app_r.
Qed.

End NameFacts.

(** X8.  The sibling of line 55: for a file whose name is a non-empty stem
    followed by an extension (a dot and one or more characters other than a
    dot), [with_suffix('.webp')] gives the path in the same directory whose
    name is the stem followed by [.webp].  So the sibling of [photo.jpg] is
    [photo.webp], and so is the sibling of [photo.JPG]: two files that
    differ only in their extension share one sibling. *)
Theorem with_suffix_extension (d : path) (stem ext ext' : string) :
  stem ≠ EmptyString -> is_extension ext -> is_extension ext' ->
  pathlib.with_suffix (d ++ [stem +:+ ext]) ".webp"
  = Ok (d ++ [stem +:+ ".webp"])
  ∧ pathlib.with_suffix (d ++ [stem +:+ ext]) ".webp"
    = pathlib.with_suffix (d ++ [stem +:+ ext']) ".webp".
Proof.
  intros Hstem Hext Hext'.
  assert (Hone : ∀ x, is_extension x ->
    pathlib.with_suffix (d ++ [stem +:+ x]) ".webp"
    = Ok (d ++ [stem +:+ ".webp"])).
  { intros x Hx. unfold pathlib.with_suffix, pathlib.name, pathlib.parent.
    rewrite last_snoc, length_app. simpl.
    replace (length d + 1 - 1)%nat with (length d) by lia.
    rewrite take_app_length.
    rewrite (suffix_extension stem x Hstem Hx).
    destruct Hx as (e & -> & He & Hdot).
    case_decide as Hnm.
    { destruct stem; [done|]. by rewrite append_cons in Hnm. }
    case_decide; [done|].
    rewrite length_append.
    replace (String.length stem + String.length (String "." e)
             - String.length (String "." e))%nat
      with (String.length stem) by lia.
    by rewrite substring_app_l. }
  split; [by apply Hone|]. by rewrite !Hone.
Qed.

(** [photo.jpg] and [photo.JPG] in the folder [Finlande]. *)
Lemma with_suffix_extension_witness :
  pathlib.with_suffix (["Finlande"] ++ ["photo" +:+ ".jpg"]) ".webp"
  = Ok (["Finlande"] ++ ["photo" +:+ ".webp"])
  ∧ pathlib.with_suffix (["Finlande"] ++ ["photo" +:+ ".jpg"]) ".webp"
    = pathlib.with_suffix (["Finlande"] ++ ["photo" +:+ ".JPG"]) ".webp".
Proof.
  apply (with_suffix_extension ["Finlande"] "photo" ".jpg" ".JPG");
    [done | by exists "jpg" | by exists "JPG"].
Defined.

(** ** The files line 88 lists *)

Section Listing.

Lemma glob_NoDup (d : path) (pat : string) (w : world) :
  ∃ l, pathlib.glob d pat w = (Ok l, w) ∧ NoDup l.
Proof.
  unfold pathlib.glob. rewrite bind_unfold. unfold get_files at 1.
  cbv beta iota.
  destruct (files w !! d) as [[sz|wr c]|].
  - eexists. split; [reflexivity|]. unfold pathlib.iterdir.
    apply NoDup_filter, NoDup_filter, NoDup_fst_map_to_list.
  - exists []. split; [done|]. constructor.
  - exists []. split; [done|]. constructor.
Qed.

(** No name ends both in [.jpg] and in [.JPG], and no name in [.webp] ends
    in either. *)
Lemma jpg_not_JPG (nm : string) :
  pathlib.fnmatch "*.jpg" nm = true -> pathlib.fnmatch "*.JPG" nm = true ->
  False.
Proof.
  rewrite (fnmatch_star_literal ".jpg"), (fnmatch_star_literal ".JPG")
    by reflexivity.
  intros [s1 ->] [s2 Heq]. by apply append_inj_r in Heq.
Qed.

Lemma webp_not_jpg (stem : string) :
  pathlib.fnmatch "*.jpg" (stem +:+ ".webp") = true
  ∨ pathlib.fnmatch "*.JPG" (stem +:+ ".webp") = true ->
  False.
Proof.
  rewrite (fnmatch_star_literal ".jpg"), (fnmatch_star_literal ".JPG")
    by reflexivity.
  change (stem +:+ ".webp") with (stem +:+ ("." +:+ "webp")).
  rewrite <- append_assoc.
  intros [[s2 Heq]|[s2 Heq]]; by apply append_inj_r in Heq.
Qed.

End Listing.

(** X9.  Line 88 lists no file twice: the two patterns match different
    names, so every file of the folder is processed at most once in a
    run. *)
Theorem images_of_NoDup (folder_path : path) (w : world) :
  ∃ images, images_of folder_path w = (Ok images, w) ∧ NoDup images.
Proof.
  unfold images_of. rewrite bind_unfold.
  destruct (glob_NoDup folder_path "*.jpg" w) as (lower & Hlower & Hnd1).
  destruct (glob_spec folder_path "*.jpg" w) as (lower' & Hlower' & Hin1).
  rewrite Hlower in Hlower'. injection Hlower' as <-. rewrite Hlower.
  rewrite bind_unfold.
  destruct (glob_NoDup folder_path "*.JPG" w) as (upper & Hupper & Hnd2).
  destruct (glob_spec folder_path "*.JPG" w) as (upper' & Hupper' & Hin2).
  rewrite Hupper in Hupper'. injection Hupper' as <-. rewrite Hupper.
  exists (lower ++ upper). split; [done|].
  apply NoDup_app. split; [done|]. split; [|done].
  intros p Hp1 Hp2. apply Hin1 in Hp1 as (_ & _ & _ & Hm1).
  apply Hin2 in Hp2 as (_ & _ & _ & Hm2). by eapply jpg_not_JPG.
Qed.

(** X10.  The sibling of a path is never a file line 88 lists, in any
    folder and any state of the files: the WebP files the script writes are
    not taken as photographs, in this run or in a later one. *)
Theorem sibling_not_selected (folder_path p sib : path) (w : world)
    (images : list path) :
  pathlib.with_suffix p ".webp" = Ok sib ->
  images_of folder_path w = (Ok images, w) ->
  sib ∉ images.
Proof.
  intros Hsib Himages Hin.
  destruct (images_of_spec folder_path w) as (images' & Hrun & Hspec).
  rewrite Himages in Hrun. injection Hrun as <-.
  apply Hspec in Hin as (_ & _ & _ & Hmatch).
  destruct (with_suffix_stem p sib ".webp" Hsib) as (_ & stem & _ & Hname).
  rewrite Hname in Hmatch. by eapply webp_not_jpg.
Qed.

(** A folder that holds [a.jpg] and its sibling [a.webp]. *)
Lemma sibling_not_selected_witness :
  let w := {| files :=
                <[ ["Finlande"; "a.webp"] :=
                     File true (Encoded WEBP (photo Pillow.RGB 2000 1500) 200100) ]>
                  (files (one_file "a.jpg"
                            (Encoded JPEG (photo Pillow.RGB 2000 1500) 300600)));
              console := [] |} in
  ["Finlande"; "a.webp"] ∉ [ ["Finlande"; "a.jpg"] ].
Proof.
  cbv zeta.
  apply (sibling_not_selected ["Finlande"] ["Finlande"; "a.jpg"]
           ["Finlande"; "a.webp"]
           {| files :=
                <[ ["Finlande"; "a.webp"] :=
                     File true (Encoded WEBP (photo Pillow.RGB 2000 1500) 200100) ]>
                  (files (one_file "a.jpg"
                            (Encoded JPEG (photo Pillow.RGB 2000 1500) 300600)));
              console := [] |});
    vm_compute; reflexivity.
Defined.

(** ** The counters and the frame of a run *)

Section RunFacts.

Context (pil : codec) (cfg : config).





End RunFacts.

(** X11.  The counters of the loop over the images of a folder never go
    down, and [total_images] goes up by at most the number of files
    listed: the summary never reports more images than there were
    files. *)
Theorem for_images_counts (pil : codec) (cfg : config) (images : list path)
    (acc : totals) (w : world) :
  (∀ p, p ∈ images -> is_Some (files w !! p)) ->
  ∃ acc' w',
    for_images pil cfg images acc w = (Ok acc', w')
    ∧ (total_images acc <= total_images acc'
       <= total_images acc + N.of_nat (length images))%N
    ∧ (total_original acc <= total_original acc')%N
    ∧ (total_optimized acc <= total_optimized acc')%N.
Proof.
  revert acc w. induction images as [|p rest IH]; intros acc w Hall.
  - exists acc, w. simpl. repeat split; lia.
  - destruct (for_images_cons pil cfg p rest acc w)
      as (n & b & w1 & n' & _ & _ & Hout & _ & ->); [apply Hall; by left|].
    pose proof (outcome_keeps _ _ _ _ _ _ Hout) as Hkeep.
    destruct (IH (if b then add_file acc n n' else acc) w1)
      as (acc' & w' & -> & Hcount & Horig & Hopt).
    { intros q Hq. apply Hkeep, Hall. by right. }
    exists acc', w'. split; [done|]. rewrite length_cons.
    destruct b; unfold add_file in *; simpl in *; lia.
Qed.

(** A folder of one photograph: one image counted. *)
Lemma for_images_counts_witness :
  ∃ acc' w',
    for_images sample_codec script_config [ ["Finlande"; "a.jpg"] ] no_totals
      (one_file "a.jpg" (Encoded JPEG (photo Pillow.RGB 4000 3000) 5000000))
    = (Ok acc', w')
    ∧ (total_images acc' <= 1)%N.
Proof.
  destruct (for_images_counts sample_codec script_config
              [ ["Finlande"; "a.jpg"] ] no_totals
              (one_file "a.jpg"
                 (Encoded JPEG (photo Pillow.RGB 4000 3000) 5000000)))
    as (acc' & w' & Hrun & Hcount & _).
  { intros p ->%list_elem_of_singleton. by eexists. }
  exists acc', w'. split; [exact Hrun|]. simpl in Hcount. lia.
Defined.

